(** * atproto-car-extractor: a shallow embedding of [main.go]

    The program is a batch driver around library calls: it reads a list of
    repository identifiers, and for each one resolves the identity, downloads
    the repository archive (CAR), unpacks the commit and the records to JSON
    files and optionally mirrors the blobs.

    The embedding keeps the control flow of [main.go] and makes its
    environment explicit:
    - the local file system is a finite map from paths to nodes;
    - every interaction with the outside world (standard output, standard
      error, file-system calls, network calls) is recorded, in program
      order, as an [event];
    - the library functions the program calls (identity lookup, XRPC calls,
      CAR decoding, JSON encoding, [filepath.Join], [strings.TrimSpace]) are
      parameters of the development: the theorems hold for every behaviour
      of these collaborators. *)

From Stdlib Require Import Ascii String Sorted.
From stdpp Require Import gmap strings list fin_maps.

Set Default Proof Using "Type".

(** ** Basic data *)

(** A Go [[]byte]. *)
Definition bytes := list Byte.byte.

(** A non-nil Go [error], identified with its message. *)
Definition error := string.

(** A Go result pair [(value, err)]. *)
Inductive res (A : Type) : Type :=
| Ok (a : A)
| Err (e : error).
Arguments Ok {A} a.
Arguments Err {A} e.

(** The line feed and the tabulation of the format strings. *)
Definition nl : string := String (ascii_of_nat 10) EmptyString.
Definition tab : string := String (ascii_of_nat 9) EmptyString.

(** [type Config struct] *)
Record Config := {
  DownloadBlobs : bool;
  CarsDir : string;
  RecordsDir : string;
  DIDsFile : string
}.

(** [identity.Identity], reduced to what the program reads from it: the DID
    and the result of the method [PDSEndpoint()]. *)
Record Identity := {
  DID : string;
  PDSEndpoint : string
}.

(** [comatproto.SyncListBlobs_Output] *)
Record ListBlobsOutput := {
  Cids : list string;
  Cursor : option string
}.

(** [repo.Repo], as the program observes it: the signed commit, the leaves
    of the MST as pairs of a key and the text of a CID, in the order in which
    [ForEach] visits them, the error (if any) with which the walk stops
    after these leaves, and the method [GetRecord]. The types of the decoded
    commit and of the decoded records are parameters. *)
Record Repo (SignedCommitT RecordT : Type) : Type := {
  SignedCommit : SignedCommitT;
  leaves : list (string * string);
  walk_err : option error;
  GetRecord : string → res (string * RecordT)
}.
Arguments SignedCommit {SignedCommitT RecordT} r.
Arguments leaves {SignedCommitT RecordT} r.
Arguments walk_err {SignedCommitT RecordT} r.
Arguments GetRecord {SignedCommitT RecordT} r k.

(** ** The file system *)

Inductive node : Type :=
| File (content : bytes)
| Directory.

Abbreviation FS := (gmap string node).

(** ** Observable events *)

Inductive event : Type :=
| Stdout (s : string)
| Stderr (s : string)
| CallMkdirAll (path : string)
| CallOpen (path : string)
| CallReadFile (path : string)
| CallStat (path : string) (found : bool)
| CallWriteFile (path : string) (data : bytes) (err : option error)
| CallLookup (atid : string)
| CallSyncGetRepo (host did : string)
| CallSyncListBlobs (host cursor did : string)
| CallSyncGetBlob (host cid did : string).

(** ** The monad of the program: file-system state and an event log *)

Definition M (A : Type) : Type := FS → A * FS * list event.

Definition ret {A} (a : A) : M A := fun fs => (a, fs, []).

Definition bind {A B} (m : M A) (k : A → M B) : M B :=
  fun fs =>
    let '(a, fs1, t1) := m fs in
    let '(b, fs2, t2) := k a fs1 in
    (b, fs2, t1 ++ t2).

Definition emit (e : event) : M unit := fun fs => (tt, fs, [e]).

Global Instance M_ret : MRet M := @ret.
Global Instance M_bind : MBind M := fun A B k m => bind m k.

(** Projections of a run. *)
Definition result {A} (r : A * FS * list event) : A := r.1.1.
Definition final {A} (r : A * FS * list event) : FS := r.1.2.
Definition events {A} (r : A * FS * list event) : list event := r.2.
Arguments result {A} !r /.
Arguments final {A} !r /.
Arguments events {A} !r /.

(** The outcome of a function that contains the unbounded [for] loop of the
    blob pagination: it returns an [error] (possibly nil), or the fuel of
    the model ran out while the loop was still asking for pages. *)
Inductive outcome : Type :=
| Returned (err : option error)
| OutOfFuel.

(** ** [strings.Split(s, "\n")] *)

Fixpoint split_on (c : ascii) (s : string) : list string :=
  match s with
  | EmptyString => [EmptyString]
  | String a s' =>
      if decide (a = c) then EmptyString :: split_on c s'
      else match split_on c s' with
           | [] => [String a EmptyString]
           | h :: t => String a h :: t
           end
  end.

Definition Split_nl (s : string) : list string := split_on (ascii_of_nat 10) s.

(** ** An ASCII instance of [strings.TrimSpace]

    Go's [TrimSpace] removes leading and trailing Unicode white space; on
    strings of ASCII bytes this is the set [asciiSpace] of the [strings]
    package: tab, line feed, vertical tab, form feed, carriage return and
    space. The program is parametric in [TrimSpace]; this instance is used
    to run it on concrete ASCII inputs. *)

Definition asciiSpace (c : ascii) : bool :=
  let n := nat_of_ascii c in
  bool_decide (n = 9 ∨ n = 10 ∨ n = 11 ∨ n = 12 ∨ n = 13 ∨ n = 32).

Fixpoint trim_left (s : string) : string :=
  match s with
  | EmptyString => EmptyString
  | String a s' => if asciiSpace a then trim_left s' else s
  end.

Fixpoint trim_right (s : string) : string :=
  match s with
  | EmptyString => EmptyString
  | String a s' =>
      match trim_right s' with
      | EmptyString => if asciiSpace a then EmptyString else String a EmptyString
      | r => String a r
      end
  end.

Definition trim_ascii (s : string) : string := trim_right (trim_left s).

(** The path of a blob in [blobDownloadAll]: [topDir + "/" + cidStr]. *)
Definition slashJoin (dir name : string) : string := dir +:+ "/" +:+ name.



Fixpoint contains (c : ascii) (s : string) : bool :=
  match s with
  | EmptyString => false
  | String a s' => if decide (a = c) then true else contains c s'
  end.

(** ** A concrete environment

    Instances of the collaborators, used to run the program on concrete
    inputs: three identifiers of which the second does not resolve, a
    repository of four leaves of which one does not resolve and one does
    not serialize, and a blob listing of two pages. *)

Module Fixture.

Definition text (s : string) : bytes := list_byte_of_string s.

(** [filepath.Join] and [filepath.Dir] on clean relative paths. *)
Definition pathJoin (dir name : string) : string := dir +:+ "/" +:+ name.

Fixpoint has_slash (s : string) : bool :=
  match s with
  | EmptyString => false
  | String a s' => if decide (a = "/"%char) then true else has_slash s'
  end.

Fixpoint pathDir (p : string) : string :=
  match p with
  | EmptyString => EmptyString
  | String a s => if has_slash s then String a (pathDir s) else EmptyString
  end.

Definition parseAtIdentifier (raw : string) : res string :=
  if String.prefix "did:" raw then Ok raw else Err "not a DID".

Definition lookup (atid : string) : res Identity :=
  if decide (atid = "did:plc:bob") then Err "identity not found"
  else Ok {| DID := atid; PDSEndpoint := "https://pds.example" |}.

Definition syncGetRepo (host did since : string) : res bytes :=
  Ok (text ("car of " +:+ did)).

Definition theRepo : Repo string string := {|
  SignedCommit := "signed commit";
  leaves := [("app.bsky.actor.profile/self", "bafyrec0");
             ("app.bsky.feed.post/3a", "bafyrec1");
             ("app.bsky.feed.post/3b", "bafyrec2");
             ("app.bsky.graph.follow/3c", "bafyrec3")];
  walk_err := None;
  GetRecord := λ k,
    if decide (k = "app.bsky.feed.post/3a") then Err "block not found"
    else if decide (k = "app.bsky.feed.post/3b") then Ok ("bafyrec2", "unserializable")
    else Ok ("bafyrec", "record " +:+ k)
|}.

Definition readRepoFromCar (content : bytes) : res (Repo string string) := Ok theRepo.

Definition marshalCommit (sc : string) : res bytes := Ok (text sc).

Definition marshalRecord (rec : string) : res bytes :=
  if decide (rec = "unserializable") then Err "json: unsupported value"
  else Ok (text rec).

Definition syncListBlobs (host cursor did : string) (limit : Z) (since : string)
    : res ListBlobsOutput :=
  if decide (cursor = EmptyString)
  then Ok {| Cids := ["bafyblob1"; "bafyblob2"]; Cursor := Some "page2" |}
  else if decide (cursor = "page2")
  then Ok {| Cids := ["bafyblob3"; "bafyblob1"]; Cursor := None |}
  else Err "unknown cursor".

Definition syncGetBlob (host c did : string) : res bytes := Ok (text ("blob " +:+ c)).

(** A remote that lists a blob it does not serve. *)
Definition syncGetBlob_gone (host c did : string) : res bytes :=
  if decide (c = "bafyblob1") then Err "blob not found" else Ok (text ("blob " +:+ c)).

(** An operating system that accepts every call, and one that refuses to
    write one path. *)
Definition accept : FS → string → option error := λ _ _, None.

Definition refuse (path : string) : FS → string → option error :=
  λ _ p, if decide (p = path) then Some "permission denied" else None.

Definition config (blobs : bool) : Config := {|
  DownloadBlobs := blobs;
  CarsDir := "cars";
  RecordsDir := "records";
  DIDsFile := "dids.txt"
|}.

(** A file system with an identifier file of four lines: two identifiers,
    the second one indented and followed by a blank line, and the first one
    again. *)
Definition didsText : string :=
  "did:plc:alice" +:+ nl +:+ "  did:plc:bob " +:+ nl +:+ nl +:+ "did:plc:alice".

Definition disk : FS := {[ "dids.txt" := File (text didsText) ]}.

(** A file system that already holds a CAR file of [did:plc:alice]. *)
Definition disk_with_car : FS :=
  {[ "cars/did:plc:alice.car" := File (text "an older archive") ]}.

Definition alice : Identity := {| DID := "did:plc:alice"; PDSEndpoint := "https://pds.example" |}.

(** A decoder that rejects every archive. *)
Definition readRepoFromCar_corrupt (content : bytes) : res (Repo string string) :=
  Err "invalid car header".

(** An environment that asks for blobs and names [file] as the identifier
    file; every other variable is unset. *)
Definition environment (file : string) : string → string :=
  λ k, if decide (k = "DOWNLOAD_BLOBS") then "true"
       else if decide (k = "DIDS_FILE") then file else EmptyString.

End Fixture.

(** ** The program *)

Section Program.

(** *** Collaborators

    Library functions and remote services, taken as parameters. The
    remote services are functions of their arguments: the remote state
    does not change while the program runs. *)

(** The decoded commit and record values of the [repo] package. *)
Variables SignedCommitT RecordT : Type.

(** [filepath.Join] (two arguments) and [filepath.Dir]. *)
Variable Join : string → string → string.
Variable Dir : string → string.

(** [strings.TrimSpace]. *)
Variable TrimSpace : string → string.

(** [syntax.ParseAtIdentifier], followed by [String()]. *)
Variable ParseAtIdentifier : string → res string.

(** [identity.DefaultDirectory().Lookup]. *)
Variable Lookup : string → res Identity.

(** [comatproto.SyncGetRepo host did since]. *)
Variable SyncGetRepo : string → string → string → res bytes.

(** [comatproto.SyncListBlobs host cursor did limit since]. *)
Variable SyncListBlobs : string → string → string → Z → string → res ListBlobsOutput.

(** [comatproto.SyncGetBlob host cid did]. *)
Variable SyncGetBlob : string → string → string → res bytes.

(** [json.MarshalIndent] on a commit and on a record. *)
Variable MarshalCommit : SignedCommitT → res bytes.
Variable MarshalRecord : RecordT → res bytes.

(** When the operating system refuses a write or a directory creation
    (permissions, missing parent, full disk): it may depend on the state
    of the file system and on the path. *)
Variable WriteFile_err : FS → string → option error.
Variable MkdirAll_err : FS → string → option error.

(** [repo.ReadRepoFromCar], on the content of the opened file. *)
Variable ReadRepoFromCar : bytes → res (Repo SignedCommitT RecordT).

(** *** Operating-system calls *)

(** [os.MkdirAll(p, perm)]: refused, or [p] is a directory afterwards
    (an existing node is left as it is). *)
Definition MkdirAll (p : string) : M (option error) := fun fs =>
  match MkdirAll_err fs p with
  | Some e => (Some e, fs, [CallMkdirAll p])
  | None =>
      match fs !! p with
      | None => (None, <[p := Directory]> fs, [CallMkdirAll p])
      | Some _ => (None, fs, [CallMkdirAll p])
      end
  end.

(** [os.WriteFile(p, data, perm)]: refused, or [p] holds [data]
    afterwards. *)
Definition WriteFile (p : string) (data : bytes) : M (option error) := fun fs =>
  match WriteFile_err fs p with
  | Some e => (Some e, fs, [CallWriteFile p data (Some e)])
  | None => (None, <[p := File data]> fs, [CallWriteFile p data None])
  end.

(** [_, err := os.Stat(p); err == nil] *)
Definition Stat (p : string) : M bool := fun fs =>
  let found := bool_decide (is_Some (fs !! p)) in
  (found, fs, [CallStat p found]).

(** The content behind [os.Open(p)] (the reads are made by
    [ReadRepoFromCar]), and [os.ReadFile(p)]. *)
Definition read_node (p : string) (fs : FS) : res bytes :=
  match fs !! p with
  | Some (File b) => Ok b
  | Some Directory => Err ("read " +:+ p +:+ ": is a directory")
  | None => Err ("open " +:+ p +:+ ": no such file or directory")
  end.

Definition Open (p : string) : M (res bytes) := fun fs =>
  (read_node p fs, fs, [CallOpen p]).

Definition ReadFile (p : string) : M (res bytes) := fun fs =>
  (read_node p fs, fs, [CallReadFile p]).

(** *** [ensureDirectories] *)

Fixpoint ensureDirs (dirs : list string) : M (option error) :=
  match dirs with
  | [] => mret None
  | dir :: rest =>
      err ← MkdirAll dir;
      match err with
      | Some e => mret (Some ("failed to create directory " +:+ dir +:+ ": " +:+ e))
      | None => ensureDirs rest
      end
  end.

Definition ensureDirectories (config : Config) : M (option error) :=
  ensureDirs [CarsDir config; RecordsDir config].

(** *** [readDIDsFromFile] and [getActivatedDIDs] *)

(** The body of the [for ... range] loop: trim the line, keep it when it
    is not empty. *)
Definition appendDID (dids : list string) (line : string) : list string :=
  let line := TrimSpace line in
  if decide (line = EmptyString) then dids else dids ++ [line].

Definition readDIDsFromFile (filename : string) : M (res (list string)) :=
  content ← ReadFile filename;
  match content with
  | Err e => mret (Err ("failed to read file: " +:+ e))
  | Ok content =>
      mret (Ok (fold_left appendDID (Split_nl (string_of_list_byte content)) []))
  end.

Definition getActivatedDIDs (filename : string) : M (res (list string)) :=
  readDIDsFromFile filename.

(** *** [downloadRepo] *)

Definition downloadRepo (ident : Identity) (carPath : string) : M (option error) :=
  let host := PDSEndpoint ident in
  if decide (host = EmptyString) then mret (Some "no PDS endpoint for identity")
  else
    emit (Stdout ("Downloading from " +:+ host +:+ " to: " +:+ carPath +:+ nl));;
    emit (CallSyncGetRepo host (DID ident));;
    match SyncGetRepo host (DID ident) EmptyString with
    | Err e => mret (Some e)
    | Ok repoBytes => WriteFile carPath repoBytes
    end.

(** *** [unpackRecords] *)

(** [r.ForEach(ctx, "", cb)]: the callback runs on every leaf in walk
    order; the first error it returns stops the walk and is returned. (The
    library turns its own sentinel [ErrDoneIterating] into nil; the
    callback of [unpackRecords] returns only the errors of [os.WriteFile],
    never this sentinel.) *)
Fixpoint walkLeaves (ls : list (string * string)) (werr : option error)
    (cb : string → string → M (option error)) : M (option error) :=
  match ls with
  | [] => mret werr
  | (k, v) :: rest =>
      err ← cb k v;
      match err with
      | Some e => mret (Some e)
      | None => walkLeaves rest werr cb
      end
  end.

Definition ForEach (r : Repo SignedCommitT RecordT) (cb : string → string → M (option error)) : M (option error) :=
  walkLeaves (leaves r) (walk_err r) cb.

(** The closure passed to [ForEach] by [unpackRecords]. *)
Definition recordCallback (r : Repo SignedCommitT RecordT) (recordsPath : string) (k v : string) : M (option error) :=
  match GetRecord r k with
  | Err e =>
      emit (Stdout ("Warning: Failed to get record " +:+ k +:+ ": " +:+ e +:+ nl));;
      mret None
  | Ok (_, rec) =>
      let recPath := Join recordsPath k in
      emit (Stdout (recPath +:+ ".json" +:+ nl));;
      MkdirAll (Dir recPath);;
      match MarshalRecord rec with
      | Err e =>
          emit (Stdout ("Warning: Failed to marshal record " +:+ k +:+ ": " +:+ e +:+ nl));;
          mret None
      | Ok recJson => WriteFile (recPath +:+ ".json") recJson
      end
  end.

Definition unpackRecords (carPath recordsPath : string) : M (option error) :=
  fi ← Open carPath;
  match fi with
  | Err e => mret (Some e)
  | Ok content =>
      match ReadRepoFromCar content with
      | Err e => mret (Some e)
      | Ok r =>
          let sc := SignedCommit r in
          emit (Stdout ("writing output to: " +:+ recordsPath +:+ nl));;
          let commitPath := Join recordsPath "_commit" in
          MkdirAll (Dir commitPath);;
          match MarshalCommit sc with
          | Err e => mret (Some e)
          | Ok recJson =>
              err ← WriteFile (commitPath +:+ ".json") recJson;
              match err with
              | Some e => mret (Some e)
              | None => ForEach r (recordCallback r recordsPath)
              end
          end
      end
  end.

(** *** [downloadBlobs] *)

(** The inner loop [for _, cidStr := range resp.Cids]. *)
Fixpoint blobPage (host did topDir : string) (cids : list string) : M (option error) :=
  match cids with
  | [] => mret None
  | cidStr :: rest =>
      let blobPath := Join topDir cidStr in
      found ← Stat blobPath;
      if found : bool then
        emit (Stdout (blobPath +:+ tab +:+ "exists" +:+ nl));;
        blobPage host did topDir rest
      else
        emit (CallSyncGetBlob host cidStr did);;
        match SyncGetBlob host cidStr did with
        | Err e => mret (Some e)
        | Ok blobBytes =>
            err ← WriteFile blobPath blobBytes;
            match err with
            | Some e => mret (Some e)
            | None =>
                emit (Stdout (blobPath +:+ tab +:+ "downloaded" +:+ nl));;
                blobPage host did topDir rest
            end
        end
  end.

(** The outer loop [for { ... }] on the pagination cursor; every
    iteration consumes one unit of fuel. *)
Fixpoint blobLoop (fuel : nat) (host did topDir cursor : string) : M outcome :=
  match fuel with
  | O => mret OutOfFuel
  | S fuel' =>
      emit (CallSyncListBlobs host cursor did);;
      match SyncListBlobs host cursor did 500 EmptyString with
      | Err e => mret (Returned (Some e))
      | Ok resp =>
          err ← blobPage host did topDir (Cids resp);
          match err with
          | Some e => mret (Returned (Some e))
          | None =>
              match Cursor resp with
              | Some c =>
                  if decide (c = EmptyString) then mret (Returned None)
                  else blobLoop fuel' host did topDir c
              | None => mret (Returned None)
              end
          end
      end
  end.

Definition downloadBlobs (fuel : nat) (ident : Identity) (recordsPath : string) : M outcome :=
  let topDir := Join recordsPath "_blob" in
  emit (Stdout ("writing blobs to: " +:+ topDir +:+ nl));;
  MkdirAll topDir;;
  let host := PDSEndpoint ident in
  if decide (host = EmptyString) then mret (Returned (Some "no PDS endpoint for identity"))
  else blobLoop fuel host (DID ident) topDir EmptyString.

(** *** [processRepo] *)

Definition processRepo (fuel : nat) (did : string) (config : Config) : M outcome :=
  match ParseAtIdentifier did with
  | Err e => mret (Returned (Some e))
  | Ok atid =>
      emit (Stdout ("Processing: " +:+ atid +:+ nl));;
      emit (CallLookup atid);;
      match Lookup atid with
      | Err e => mret (Returned (Some e))
      | Ok ident =>
          let carPath := Join (CarsDir config) (DID ident +:+ ".car") in
          err ← downloadRepo ident carPath;
          match err with
          | Some e => mret (Returned (Some e))
          | None =>
              let recordsPath := Join (RecordsDir config) (DID ident) in
              err ← unpackRecords carPath recordsPath;
              match err with
              | Some e => mret (Returned (Some e))
              | None =>
                  if DownloadBlobs config then downloadBlobs fuel ident recordsPath
                  else mret (Returned None)
              end
          end
      end
  end.

(** *** [run] *)

(** The loop [for _, did := range dids]. *)
Fixpoint runLoop (fuel : nat) (dids : list string) (config : Config) : M outcome :=
  match dids with
  | [] => mret (Returned None)
  | did :: rest =>
      o ← processRepo fuel did config;
      match o with
      | OutOfFuel => mret OutOfFuel
      | Returned (Some e) =>
          emit (Stderr ("error processing " +:+ did +:+ ": " +:+ e +:+ nl));;
          runLoop fuel rest config
      | Returned None => runLoop fuel rest config
      end
  end.

Definition run (fuel : nat) (config : Config) : M outcome :=
  err ← ensureDirectories config;
  match err with
  | Some e => mret (Returned (Some e))
  | None =>
      dids ← getActivatedDIDs (DIDsFile config);
      match dids with
      | Err e => mret (Returned (Some ("failed to get DIDs from file: " +:+ e)))
      | Ok dids => runLoop fuel dids config
      end
  end.


(** *** Reading the event log *)

(** The units written to the output sink: the [os.WriteFile] calls that
    returned nil, as pairs of a path and a content, in program order. *)
Definition exported (e : event) : option (string * bytes) :=
  match e with
  | CallWriteFile p d None => Some (p, d)
  | _ => None
  end.

Definition exports (t : list event) : list (string * bytes) := omap exported t.

(** The content hashes fetched with [SyncGetBlob], in program order. *)
Definition fetched (e : event) : option string :=
  match e with
  | CallSyncGetBlob _ c _ => Some c
  | _ => None
  end.

Definition fetches (t : list event) : list string := omap fetched t.

(** The cursors passed to [SyncListBlobs], in program order. *)
Definition listed (e : event) : option string :=
  match e with
  | CallSyncListBlobs _ c _ => Some c
  | _ => None
  end.

Definition listings (t : list event) : list string := omap listed t.



(** What one iteration of [runLoop] adds to the event log after
    [processRepo] has returned. *)
Definition report (did : string) (o : outcome) : list event :=
  match o with
  | Returned (Some e) => [Stderr ("error processing " +:+ did +:+ ": " +:+ e +:+ nl)]
  | _ => []
  end.

(** The error of a refused [os.WriteFile] call, and the error of a
    [SyncGetBlob] call that the remote fails. *)
Definition write_error (e : event) : option error :=
  match e with
  | CallWriteFile _ _ err => err
  | _ => None
  end.

Definition fetch_error (e : event) : option error :=
  match e with
  | CallSyncGetBlob host c did =>
      match SyncGetBlob host c did with
      | Err err => Some err
      | Ok _ => None
      end
  | _ => None
  end.

(** Both kinds of error at once. *)
Definition sync_error (e : event) : option error :=
  match write_error e with
  | Some err => Some err
  | None => fetch_error e
  end.

(** A log without an event that [F] classifies as an error. *)
Definition quiet (F : event → option error) (t : list event) : Prop :=
  Forall (λ e, F e = None) t.

(** The errors classified by [F] are fatal to a run with log [t] and
    result [a]: no such error occurs, or the first one is the last event
    of the log and the run returns it ([inj] makes a result of an error). *)
Definition fatal_last {A} (F : event → option error) (inj : error → A)
    (t : list event) (a : A) : Prop :=
  quiet F t
  ∨ ∃ t0 e err, t = t0 ++ [e] ∧ quiet F t0 ∧ F e = Some err ∧ a = inj err.

(** Every [SyncGetBlob] call of the log comes right after an [os.Stat]
    of the path of that blob under [topDir] that found nothing. *)
Definition checked_fetches (topDir : string) (t : list event) : Prop :=
  ∀ ta host c did tb,
    t = ta ++ CallSyncGetBlob host c did :: tb →
    ∃ ta', ta = ta' ++ [CallStat (Join topDir c) false].

(** The blob listing that starts at [cursor] ends within [n] pages: a
    listing call fails, or returns an absent or empty cursor. *)
Fixpoint pages_end (n : nat) (host did cursor : string) : bool :=
  match n with
  | O => false
  | S n' =>
      match SyncListBlobs host cursor did 500 EmptyString with
      | Err _ => true
      | Ok resp =>
          match Cursor resp with
          | Some c => if decide (c = EmptyString) then true else pages_end n' host did c
          | None => true
          end
      end
  end.

(** Modelled after the words of the specification of the identifier
    source, to compare with [readDIDsFromFile]: every non-blank line of
    the file, in file order, duplicates included. A line is blank when
    nothing but white space is on it. *)
Definition spec_nonblank_lines (content : string) : list string :=
  filter (λ line, TrimSpace line ≠ EmptyString) (Split_nl content).

(** *** [main] *)

(** How the process ends: [os.Exit(code)] (or the return of [main], code
    0), a run-time panic, or the fuel of the model ran out. *)
Inductive status : Type :=
| Exit (code : nat)
| Panic
| NoFuel.

(** The [Config] that [main] builds from [os.Args] and the environment;
    [os.Getenv] gives the empty string for a variable that is not set. *)
Definition mainConfig (args : list string) (getenv : string → string) : Config := {|
  DownloadBlobs := bool_decide (getenv "DOWNLOAD_BLOBS" = "true");
  CarsDir := "cars";
  RecordsDir := "records";
  DIDsFile :=
    match args with
    | _ :: arg1 :: _ => arg1
    | _ => getenv "DIDS_FILE"
    end
|}.

Definition main (args : list string) (getenv : string → string) (fuel : nat) : M status :=
  let config := mainConfig args getenv in
  if decide (DIDsFile config = EmptyString) then
    emit (Stderr ("error: Please provide DIDs file path as argument or set "
                  +:+ "DIDS_FILE environment variable" +:+ nl));;
    match args with
    | [] => mret Panic
    | prog :: _ =>
        emit (Stderr ("usage: " +:+ prog +:+ " <dids-file>" +:+ nl));;
        mret (Exit 1)
    end
  else
    o ← run fuel config;
    match o with
    | OutOfFuel => mret NoFuel
    | Returned (Some e) =>
        emit (Stderr ("error: " +:+ e +:+ nl));;
        mret (Exit 1)
    | Returned None => mret (Exit 0)
    end.

(** *** [carUnpack] *)

(** The field [Did] of the signed commit, and [syntax.ParseDID] followed by
    [String()]. *)
Variable CommitDid : SignedCommitT → string.
Variable ParseDID : string → res string.

(** The closure passed to [ForEach] by [carUnpack]: every error is
    returned. (The test of [err] after [os.MkdirAll] reads the nil error of
    [GetRecord].) *)
Definition carUnpackCallback (r : Repo SignedCommitT RecordT) (topDir : string)
    (k v : string) : M (option error) :=
  match GetRecord r k with
  | Err e => mret (Some e)
  | Ok (_, rec) =>
      let recPath := topDir +:+ "/" +:+ k in
      emit (Stdout (recPath +:+ ".json" +:+ nl));;
      MkdirAll (Dir recPath);;
      match MarshalRecord rec with
      | Err e => mret (Some e)
      | Ok recJson => WriteFile (recPath +:+ ".json") recJson
      end
  end.

Definition carUnpack (carPath : string) : M (option error) :=
  fi ← Open carPath;
  match fi with
  | Err e => mret (Some e)
  | Ok content =>
      match ReadRepoFromCar content with
      | Err e => mret (Some e)
      | Ok r =>
          let sc := SignedCommit r in
          match ParseDID (CommitDid sc) with
          | Err e => mret (Some e)
          | Ok did =>
              let topDir := did in
              emit (Stdout ("writing output to: " +:+ topDir +:+ nl));;
              let commitPath := topDir +:+ "/_commit" in
              MkdirAll (Dir commitPath);;
              match MarshalCommit sc with
              | Err e => mret (Some e)
              | Ok recJson =>
                  err ← WriteFile (commitPath +:+ ".json") recJson;
                  match err with
                  | Some e => mret (Some e)
                  | None => ForEach r (carUnpackCallback r topDir)
                  end
              end
          end
      end
  end.

(** The unit [carUnpack] exports a leaf as. *)
Definition carUnit (r : Repo SignedCommitT RecordT) (topDir : string)
    (kv : string * string) : option (string * bytes) :=
  match GetRecord r kv.1 with
  | Err _ => None
  | Ok (_, rec) =>
      match MarshalRecord rec with
      | Err _ => None
      | Ok recJson => Some ((topDir +:+ "/" +:+ kv.1) +:+ ".json", recJson)
      end
  end.

(** *** [blobDownloadAll] *)

(** The inner and the outer loop of [blobDownloadAll]: the loops of
    [downloadBlobs] with the path of a blob made by concatenation. *)
Fixpoint blobPageAll (host did topDir : string) (cids : list string) : M (option error) :=
  match cids with
  | [] => mret None
  | cidStr :: rest =>
      let blobPath := topDir +:+ "/" +:+ cidStr in
      found ← Stat blobPath;
      if found : bool then
        emit (Stdout (blobPath +:+ tab +:+ "exists" +:+ nl));;
        blobPageAll host did topDir rest
      else
        emit (CallSyncGetBlob host cidStr did);;
        match SyncGetBlob host cidStr did with
        | Err e => mret (Some e)
        | Ok blobBytes =>
            err ← WriteFile blobPath blobBytes;
            match err with
            | Some e => mret (Some e)
            | None =>
                emit (Stdout (blobPath +:+ tab +:+ "downloaded" +:+ nl));;
                blobPageAll host did topDir rest
            end
        end
  end.

Fixpoint blobLoopAll (fuel : nat) (host did topDir cursor : string) : M outcome :=
  match fuel with
  | O => mret OutOfFuel
  | S fuel' =>
      emit (CallSyncListBlobs host cursor did);;
      match SyncListBlobs host cursor did 500 EmptyString with
      | Err e => mret (Returned (Some e))
      | Ok resp =>
          err ← blobPageAll host did topDir (Cids resp);
          match err with
          | Some e => mret (Returned (Some e))
          | None =>
              match Cursor resp with
              | Some c =>
                  if decide (c = EmptyString) then mret (Returned None)
                  else blobLoopAll fuel' host did topDir c
              | None => mret (Returned None)
              end
          end
      end
  end.

Definition blobDownloadAll (fuel : nat) (raw : string) : M outcome :=
  match ParseAtIdentifier raw with
  | Err e => mret (Returned (Some e))
  | Ok atid =>
      emit (CallLookup atid);;
      match Lookup atid with
      | Err e => mret (Returned (Some e))
      | Ok ident =>
          let host := PDSEndpoint ident in
          if decide (host = EmptyString)
          then mret (Returned (Some "no PDS endpoint for identity"))
          else
            let topDir := DID ident +:+ "/_blob" in
            emit (Stdout ("writing blobs to: " +:+ topDir +:+ nl));;
            MkdirAll topDir;;
            blobLoopAll fuel host (DID ident) topDir EmptyString
      end
  end.

(** *** More readings of the event log *)

(** The cursors that the blob listing of the remote gives one after the
    other, starting at [cursor], [n] at most: what a pagination that meets
    no error asks for. *)
Fixpoint cursor_chain (n : nat) (host did cursor : string) : list string :=
  match n with
  | O => []
  | S n' =>
      cursor ::
      match SyncListBlobs host cursor did 500 EmptyString with
      | Err _ => []
      | Ok resp =>
          match Cursor resp with
          | Some c => if decide (c = EmptyString) then [] else cursor_chain n' host did c
          | None => []
          end
      end
  end.

(** The events of the blob synchronizer: existence checks, listing calls
    and fetches. *)
Definition blob_call (e : event) : bool :=
  match e with
  | CallStat _ _ | CallSyncListBlobs _ _ _ | CallSyncGetBlob _ _ _ => true
  | _ => false
  end.

(** The lines written to standard error. *)
Definition stderr_line (e : event) : option string :=
  match e with
  | Stderr s => Some s
  | _ => None
  end.

(** An identifier that does not resolve: its syntax is refused or its
    identity is not found. *)
Definition unresolved (did : string) : Prop :=
  match ParseAtIdentifier did with
  | Err _ => True
  | Ok atid => match Lookup atid with Err _ => True | Ok _ => False end
  end.

(** The error [processRepo] returns for an identifier that does not
    resolve. *)
Definition resolution_error (did : string) : error :=
  match ParseAtIdentifier did with
  | Err e => e
  | Ok atid => match Lookup atid with Err e => e | Ok _ => EmptyString end
  end.

(** The identifiers handed to [Lookup], in call order, and the identifier
    that [processRepo] resolves for a line of the identifier file. *)
Definition lookup_call (e : event) : option string :=
  match e with
  | CallLookup atid => Some atid
  | _ => None
  end.

Definition parsed (did : string) : option string :=
  match ParseAtIdentifier did with
  | Ok atid => Some atid
  | Err _ => None
  end.

(** ** Properties *)

(** *** Running the monad *)

Lemma bind_run {A B} (m : M A) (k : A → M B) (fs : FS) :
  (m ≫= k) fs =
    let '(a, fs1, t1) := m fs in
    let '(b, fs2, t2) := k a fs1 in
    (b, fs2, t1 ++ t2).
Proof. reflexivity. Qed.

Lemma ret_run {A} (a : A) (fs : FS) : (mret a : M A) fs = (a, fs, []).
Proof. reflexivity. Qed.

Lemma emit_run {B} (e : event) (k : M B) (fs : FS) :
  (emit e ≫= λ _, k) fs = let '(b, fs2, t2) := k fs in (b, fs2, e :: t2).
Proof. rewrite bind_run. simpl. by destruct (k fs) as [[??]?]. Qed.

Lemma omap_cons_Some {A B} (f : A → option B) (x : A) (y : B) (l : list A) :
  f x = Some y → omap f (x :: l) = y :: omap f l.
Proof. intros H. simpl. by rewrite H. Qed.

Lemma omap_cons_None {A B} (f : A → option B) (x : A) (l : list A) :
  f x = None → omap f (x :: l) = omap f l.
Proof. intros H. simpl. by rewrite H. Qed.

Lemma exports_app t1 t2 : exports (t1 ++ t2) = exports t1 ++ exports t2.
Proof. apply omap_app. Qed.

Lemma fetches_app t1 t2 : fetches (t1 ++ t2) = fetches t1 ++ fetches t2.
Proof. apply omap_app. Qed.

Lemma listings_app t1 t2 : listings (t1 ++ t2) = listings t1 ++ listings t2.
Proof. apply omap_app. Qed.

(** *** The identifier source *)

Lemma fold_appendDID (lines acc : list string) :
  fold_left appendDID lines acc
  = acc ++ filter (λ l, l ≠ EmptyString) (TrimSpace <$> lines).
Proof.
  revert acc. induction lines as [|line lines IH]; intros acc; simpl.
  - by rewrite app_nil_r.
  - rewrite IH. unfold appendDID. rewrite filter_cons.
    destruct (decide (TrimSpace line = EmptyString)) as [->|Hne].
    + by rewrite decide_False by (intros H; by apply H).
    + rewrite decide_True by done. by rewrite <- app_assoc.
Qed.

(** C8 (amended). The identifier source reads one identifier per input
    line: the returned list holds, in file order and with duplicates kept,
    every line of the file with its leading and trailing white space
    removed, except the lines that are empty once trimmed. *)
Theorem readDIDsFromFile_trimmed_lines (filename : string) (fs : FS) (content : bytes) :
  fs !! filename = Some (File content) →
  result (readDIDsFromFile filename fs)
  = Ok (filter (λ l, l ≠ EmptyString)
          (TrimSpace <$> Split_nl (string_of_list_byte content))).
Proof.
  intros Hfile. unfold readDIDsFromFile. rewrite bind_run.
  unfold ReadFile, read_node. rewrite Hfile. simpl.
  by rewrite fold_appendDID.
Qed.

(** *** Operating-system calls *)

Lemma MkdirAll_events (p : string) (fs : FS) :
  events (MkdirAll p fs) = [CallMkdirAll p].
Proof.
  unfold MkdirAll. destruct (MkdirAll_err fs p); [done|].
  by destruct (fs !! p).
Qed.

Lemma MkdirAll_run (p : string) (fs : FS) :
  MkdirAll p fs = (result (MkdirAll p fs), final (MkdirAll p fs), [CallMkdirAll p]).
Proof.
  rewrite <- (MkdirAll_events p fs). by destruct (MkdirAll p fs) as [[??]?].
Qed.

Lemma MkdirAll_subseteq (p : string) (fs : FS) : fs ⊆ final (MkdirAll p fs).
Proof.
  unfold MkdirAll. destruct (MkdirAll_err fs p); [done|].
  destruct (fs !! p) eqn:Hp; [done|]. by apply insert_subseteq.
Qed.

Lemma WriteFile_ok (p : string) (data : bytes) (fs : FS) :
  WriteFile_err fs p = None →
  WriteFile p data fs = (None, <[p := File data]> fs, [CallWriteFile p data None]).
Proof. intros H. unfold WriteFile. by rewrite H. Qed.

Lemma WriteFile_refused (p : string) (data : bytes) (fs : FS) (e : error) :
  WriteFile_err fs p = Some e →
  WriteFile p data fs = (Some e, fs, [CallWriteFile p data (Some e)]).
Proof. intros H. unfold WriteFile. by rewrite H. Qed.

(** *** The record callback, case by case *)

Section Callback.
Variable r : Repo SignedCommitT RecordT.
Variable recordsPath : string.

Lemma recordCallback_get_err (k v : string) (e : error) (fs : FS) :
  GetRecord r k = Err e →
  recordCallback r recordsPath k v fs
  = (None, fs,
      [Stdout ("Warning: Failed to get record " +:+ k +:+ ": " +:+ e +:+ nl)]).
Proof. intros H. unfold recordCallback. by rewrite H. Qed.

Lemma recordCallback_marshal_err (k v c : string) (rec : RecordT) (e : error) (fs : FS) :
  GetRecord r k = Ok (c, rec) →
  MarshalRecord rec = Err e →
  recordCallback r recordsPath k v fs
  = (None, final (MkdirAll (Dir (Join recordsPath k)) fs),
      [Stdout (Join recordsPath k +:+ ".json" +:+ nl);
       CallMkdirAll (Dir (Join recordsPath k));
       Stdout ("Warning: Failed to marshal record " +:+ k +:+ ": " +:+ e +:+ nl)]).
Proof.
  intros Hg Hm. unfold recordCallback. rewrite Hg, Hm.
  rewrite emit_run, bind_run, MkdirAll_run. by rewrite emit_run.
Qed.

Lemma recordCallback_write (k v c : string) (rec : RecordT) (recJson : bytes) (fs : FS) :
  GetRecord r k = Ok (c, rec) →
  MarshalRecord rec = Ok recJson →
  recordCallback r recordsPath k v fs
  = let fs1 := final (MkdirAll (Dir (Join recordsPath k)) fs) in
    let p := Join recordsPath k +:+ ".json" in
    let pre := [Stdout (Join recordsPath k +:+ ".json" +:+ nl);
                CallMkdirAll (Dir (Join recordsPath k))] in
    match WriteFile_err fs1 p with
    | Some e => (Some e, fs1, pre ++ [CallWriteFile p recJson (Some e)])
    | None => (None, <[p := File recJson]> fs1, pre ++ [CallWriteFile p recJson None])
    end.
Proof.
  intros Hg Hm. unfold recordCallback. rewrite Hg, Hm.
  rewrite emit_run, bind_run, MkdirAll_run. unfold WriteFile.
  by destruct (WriteFile_err _ _).
Qed.



(** *** The walk over the leaves *)

Lemma walkLeaves_cons (k v : string) (rest : list (string * string))
    (werr : option error) (fs : FS) :
  walkLeaves ((k, v) :: rest) werr (recordCallback r recordsPath) fs
  = let '(err, fs1, t1) := recordCallback r recordsPath k v fs in
    match err with
    | Some e => (Some e, fs1, t1)
    | None =>
        let '(err2, fs2, t2) :=
          walkLeaves rest werr (recordCallback r recordsPath) fs1 in
        (err2, fs2, t1 ++ t2)
    end.
Proof.
  simpl. rewrite bind_run.
  destruct (recordCallback r recordsPath k v fs) as [[[e|] fs1] t1]; simpl.
  - by rewrite app_nil_r.
  - done.
Qed.

End Callback.


(** *** [unpackRecords], once the archive is decoded *)

Lemma unpackRecords_decoded (carPath recordsPath : string) (fs : FS)
    (content : bytes) (r : Repo SignedCommitT RecordT) (recJson : bytes) :
  read_node carPath fs = Ok content →
  ReadRepoFromCar content = Ok r →
  MarshalCommit (SignedCommit r) = Ok recJson →
  unpackRecords carPath recordsPath fs
  = let commitPath := Join recordsPath "_commit" in
    let fs1 := final (MkdirAll (Dir commitPath) fs) in
    let pre := [CallOpen carPath;
                Stdout ("writing output to: " +:+ recordsPath +:+ nl);
                CallMkdirAll (Dir commitPath)] in
    match WriteFile_err fs1 (commitPath +:+ ".json") with
    | Some e => (Some e, fs1, pre ++ [CallWriteFile (commitPath +:+ ".json") recJson (Some e)])
    | None =>
        let '(err, fs2, t2) :=
          ForEach r (recordCallback r recordsPath)
            (<[commitPath +:+ ".json" := File recJson]> fs1) in
        (err, fs2, pre ++ CallWriteFile (commitPath +:+ ".json") recJson None :: t2)
    end.
Proof.
  intros Hopen Hread Hm. unfold unpackRecords. rewrite bind_run.
  unfold Open at 1. rewrite Hopen, Hread. rewrite emit_run, bind_run, MkdirAll_run.
  rewrite Hm, bind_run. unfold WriteFile. simpl.
  destruct (WriteFile_err _ _); [done|].
  by destruct (ForEach r _ _) as [[??]?].
Qed.


(** *** The order of the keys *)








(** *** What the walk exports *)


(** *** [unpackRecords] in general *)

(** Either nothing is exported, or the log is made of events that export
    nothing, the write of the commit, and the events of the walk. *)
Lemma unpackRecords_shape (carPath recordsPath : string) (fs : FS) :
  exports (events (unpackRecords carPath recordsPath fs)) = []
  ∨ ∃ content r commitJson pre fs1,
      read_node carPath fs = Ok content
      ∧ ReadRepoFromCar content = Ok r
      ∧ MarshalCommit (SignedCommit r) = Ok commitJson
      ∧ exports pre = []
      ∧ unpackRecords carPath recordsPath fs
        = (result (ForEach r (recordCallback r recordsPath) fs1),
           final (ForEach r (recordCallback r recordsPath) fs1),
           pre ++ CallWriteFile (Join recordsPath "_commit" +:+ ".json") commitJson None
               :: events (ForEach r (recordCallback r recordsPath) fs1)).
Proof.
  destruct (read_node carPath fs) as [content|e] eqn:Hopen.
  2: { left. unfold unpackRecords. rewrite bind_run. unfold Open at 1. by rewrite Hopen. }
  destruct (ReadRepoFromCar content) as [r|e] eqn:Hread.
  2: { left. unfold unpackRecords. rewrite bind_run. unfold Open at 1.
       by rewrite Hopen, Hread. }
  destruct (MarshalCommit (SignedCommit r)) as [commitJson|e] eqn:Hm.
  2: { left. unfold unpackRecords. rewrite bind_run. unfold Open at 1.
       rewrite Hopen, Hread. rewrite emit_run, bind_run, MkdirAll_run. by rewrite Hm. }
  rewrite (unpackRecords_decoded _ _ _ _ _ _ Hopen Hread Hm). cbv zeta.
  destruct (WriteFile_err _ _) eqn:Hw; [by left|]. right.
  exists content, r, commitJson,
    [CallOpen carPath; Stdout ("writing output to: " +:+ recordsPath +:+ nl);
     CallMkdirAll (Dir (Join recordsPath "_commit"))],
    (<[Join recordsPath "_commit" +:+ ".json" := File commitJson]>
       (final (MkdirAll (Dir (Join recordsPath "_commit")) fs))).
  split_and!; [done..|]. by destruct (ForEach r _ _) as [[??]?].
Qed.


(** C3. Within the extraction of one repository the signed commit is
    exported before any record: either [unpackRecords] exports nothing at
    all, or its log consists of events that export nothing, then the
    successful write of the commit, then the events of the walk over the
    records; the commit is the first unit of the output. *)
Theorem commit_exported_before_records (carPath recordsPath : string) (fs : FS) :
  exports (events (unpackRecords carPath recordsPath fs)) = []
  ∨ ∃ r commitJson pre fs1,
      MarshalCommit (SignedCommit r) = Ok commitJson
      ∧ exports pre = []
      ∧ events (unpackRecords carPath recordsPath fs)
        = pre ++ CallWriteFile (Join recordsPath "_commit" +:+ ".json") commitJson None
              :: events (ForEach r (recordCallback r recordsPath) fs1)
      ∧ exports (events (unpackRecords carPath recordsPath fs))
        = (Join recordsPath "_commit" +:+ ".json", commitJson)
          :: exports (events (ForEach r (recordCallback r recordsPath) fs1)).
Proof.
  destruct (unpackRecords_shape carPath recordsPath fs)
    as [Hnone|(content & r & commitJson & pre & fs1 & _ & _ & Hm & Hpre & Hrun)];
    [by left|right].
  exists r, commitJson, pre, fs1. rewrite Hrun. simpl.
  split_and!; [done..|]. by rewrite exports_app, Hpre.
Qed.


(** *** Fatal events *)

Section Fatal.
Context {A : Type} (F : event → option error) (inj : error → A).

Lemma quiet_app (t1 t2 : list event) : quiet F t1 → quiet F t2 → quiet F (t1 ++ t2).
Proof. apply Forall_app_2. Qed.

Lemma fatal_last_quiet (t : list event) (a : A) : quiet F t → fatal_last F inj t a.
Proof. by left. Qed.

Lemma fatal_last_here (t0 : list event) (e : event) (err : error) :
  quiet F t0 → F e = Some err → fatal_last F inj (t0 ++ [e]) (inj err).
Proof. intros H0 He. right. by exists t0, e, err. Qed.

Lemma fatal_last_prefix (t1 t2 : list event) (a : A) :
  quiet F t1 → fatal_last F inj t2 a → fatal_last F inj (t1 ++ t2) a.
Proof.
  intros H1 [H2|(t0 & e & err & -> & H0 & He & ->)].
  - left. by apply quiet_app.
  - right. exists (t1 ++ t0), e, err. rewrite app_assoc.
    split_and!; [done|by apply quiet_app|done..].
Qed.

(** A step that returns an [error], followed by the rest of the
    function when the error is nil. *)
Lemma fatal_last_seq (t1 t2 : list event) (a1 : option error) (a : A) :
  fatal_last F Some t1 a1 →
  (a1 = None → fatal_last F inj t2 a) →
  (∀ e, a1 = Some e → t2 = [] ∧ a = inj e) →
  fatal_last F inj (t1 ++ t2) a.
Proof.
  intros H1 Hnone Hsome. destruct a1 as [e1|].
  - destruct (Hsome e1 eq_refl) as [-> ->]. rewrite app_nil_r.
    destruct H1 as [H1|(t0 & e & err & -> & H0 & He & Heq)]; [by left|].
    simplify_eq. by apply fatal_last_here.
  - destruct H1 as [H1|(t0 & e & err & -> & H0 & He & Heq)]; [|done].
    apply fatal_last_prefix; [done|by apply Hnone].
Qed.
End Fatal.

Lemma fatal_last_weaken {A} (F F' : event → option error) (inj : error → A)
    (t : list event) (a : A) :
  (∀ e, F e = None → F' e = None) →
  (∀ e err, F e = Some err → F' e = None ∨ F' e = Some err) →
  fatal_last F inj t a → fatal_last F' inj t a.
Proof.
  intros Hnone Hsome [Hq|(t0 & e & err & -> & H0 & He & ->)].
  - left. eapply Forall_impl; [done|]. intros e. apply Hnone.
  - assert (quiet F' t0) as H0'.
    { eapply Forall_impl; [done|]. intros e'. apply Hnone. }
    destruct (Hsome e err He) as [He'|He'].
    + left. apply quiet_app; [done|]. by constructor.
    + by apply fatal_last_here.
Qed.


Lemma fatal_last_fetch_error {A} (inj : error → A) (t : list event) (a : A) :
  fatal_last sync_error inj t a → fatal_last fetch_error inj t a.
Proof.
  apply fatal_last_weaken.
  - intros e. unfold sync_error. by destruct (write_error e).
  - intros e err. unfold sync_error. destruct (write_error e) eqn:Hw.
    + destruct e; try done. by left.
    + by right.
Qed.

Lemma WriteFile_fatal (p : string) (data : bytes) (fs : FS) :
  fatal_last sync_error Some (events (WriteFile p data fs)) (result (WriteFile p data fs)).
Proof.
  unfold WriteFile. destruct (WriteFile_err fs p) as [e|]; simpl.
  - apply (fatal_last_here _ _ []); [constructor|done].
  - left. by repeat constructor.
Qed.



(** *** The blob loops, step by step *)

Lemma blobPage_cons (host did topDir cidStr : string) (rest : list string) (fs : FS) :
  blobPage host did topDir (cidStr :: rest) fs
  = let p := Join topDir cidStr in
    match fs !! p with
    | Some _ =>
        let '(err, fs2, t2) := blobPage host did topDir rest fs in
        (err, fs2, CallStat p true :: Stdout (p +:+ tab +:+ "exists" +:+ nl) :: t2)
    | None =>
        match SyncGetBlob host cidStr did with
        | Err e => (Some e, fs, [CallStat p false; CallSyncGetBlob host cidStr did])
        | Ok blobBytes =>
            match WriteFile_err fs p with
            | Some e =>
                (Some e, fs,
                 [CallStat p false; CallSyncGetBlob host cidStr did;
                  CallWriteFile p blobBytes (Some e)])
            | None =>
                let '(err, fs2, t2) :=
                  blobPage host did topDir rest (<[p := File blobBytes]> fs) in
                (err, fs2,
                 CallStat p false :: CallSyncGetBlob host cidStr did
                 :: CallWriteFile p blobBytes None
                 :: Stdout (p +:+ tab +:+ "downloaded" +:+ nl) :: t2)
            end
        end
    end.
Proof.
  cbv zeta. simpl. rewrite bind_run. unfold Stat at 1.
  destruct (fs !! Join topDir cidStr) as [n|] eqn:Hp.
  - rewrite bool_decide_eq_true_2 by by eexists.
    rewrite emit_run. by destruct (blobPage host did topDir rest fs) as [[??]?].
  - rewrite bool_decide_eq_false_2 by (by intros [??]).
    rewrite emit_run. destruct (SyncGetBlob host cidStr did) as [b|e]; [|done].
    rewrite bind_run. unfold WriteFile at 1.
    destruct (WriteFile_err fs _) as [e|]; [done|].
    rewrite emit_run. by destruct (blobPage host did topDir rest _) as [[??]?].
Qed.

Lemma blobLoop_S (fuel : nat) (host did topDir cursor : string) (fs : FS) :
  blobLoop (S fuel) host did topDir cursor fs
  = match SyncListBlobs host cursor did 500 EmptyString with
    | Err e => (Returned (Some e), fs, [CallSyncListBlobs host cursor did])
    | Ok resp =>
        let '(err, fs1, t1) := blobPage host did topDir (Cids resp) fs in
        match err with
        | Some e => (Returned (Some e), fs1, CallSyncListBlobs host cursor did :: t1)
        | None =>
            match Cursor resp with
            | Some c =>
                if decide (c = EmptyString)
                then (Returned None, fs1, CallSyncListBlobs host cursor did :: t1)
                else
                  let '(o, fs2, t2) := blobLoop fuel host did topDir c fs1 in
                  (o, fs2, CallSyncListBlobs host cursor did :: t1 ++ t2)
            | None => (Returned None, fs1, CallSyncListBlobs host cursor did :: t1)
            end
        end
    end.
Proof.
  simpl. rewrite emit_run.
  destruct (SyncListBlobs host cursor did 500 "") as [resp|e]; [|done].
  rewrite bind_run.
  destruct (blobPage host did topDir (Cids resp) fs) as [[[e|] fs1] t1]; simpl.
  - by rewrite app_nil_r.
  - destruct (Cursor resp) as [c|]; simpl; [|by rewrite app_nil_r].
    destruct (decide (c = "")); simpl; [by rewrite app_nil_r|].
    by destruct (blobLoop fuel host did topDir c fs1) as [[??]?].
Qed.

Lemma downloadBlobs_run (fuel : nat) (ident : Identity) (recordsPath : string) (fs : FS) :
  downloadBlobs fuel ident recordsPath fs
  = let topDir := Join recordsPath "_blob" in
    let fs1 := final (MkdirAll topDir fs) in
    let pre := [Stdout ("writing blobs to: " +:+ topDir +:+ nl); CallMkdirAll topDir] in
    if decide (PDSEndpoint ident = EmptyString)
    then (Returned (Some "no PDS endpoint for identity"), fs1, pre)
    else
      let '(o, fs2, t2) :=
        blobLoop fuel (PDSEndpoint ident) (DID ident) topDir EmptyString fs1 in
      (o, fs2, pre ++ t2).
Proof.
  unfold downloadBlobs. rewrite emit_run, bind_run, MkdirAll_run. cbv zeta.
  destruct (decide (PDSEndpoint ident = "")); simpl; [done|].
  by destruct (blobLoop _ _ _ _ _ _) as [[??]?].
Qed.

(** *** The blob synchronizer leaves the existing nodes as they are *)

Lemma blobPage_subseteq (host did topDir : string) (cids : list string) (fs : FS) :
  fs ⊆ final (blobPage host did topDir cids fs).
Proof.
  revert fs. induction cids as [|c rest IH]; intros fs; [done|].
  rewrite blobPage_cons. cbv zeta.
  destruct (fs !! Join topDir c) eqn:Hp.
  - specialize (IH fs). by destruct (blobPage host did topDir rest fs) as [[??]?].
  - destruct (SyncGetBlob host c did) as [b|e]; [|done].
    destruct (WriteFile_err fs _); [done|].
    specialize (IH (<[Join topDir c := File b]> fs)).
    destruct (blobPage host did topDir rest _) as [[??]?]. simpl in *.
    etrans; [|done]. by apply insert_subseteq.
Qed.

Lemma blobLoop_subseteq (fuel : nat) (host did topDir cursor : string) (fs : FS) :
  fs ⊆ final (blobLoop fuel host did topDir cursor fs).
Proof.
  revert cursor fs. induction fuel as [|fuel IH]; intros cursor fs; [done|].
  rewrite blobLoop_S.
  destruct (SyncListBlobs host cursor did 500 "") as [resp|e]; [|done].
  pose proof (blobPage_subseteq host did topDir (Cids resp) fs) as Hpage.
  destruct (blobPage host did topDir (Cids resp) fs) as [[[e|] fs1] t1]; [done|].
  simpl in Hpage.
  destruct (Cursor resp) as [c|]; [|done].
  destruct (decide (c = "")); [done|].
  specialize (IH c fs1).
  destruct (blobLoop fuel host did topDir c fs1) as [[??]?]. simpl in *.
  by etrans.
Qed.

Lemma downloadBlobs_subseteq (fuel : nat) (ident : Identity) (recordsPath : string)
    (fs : FS) :
  fs ⊆ final (downloadBlobs fuel ident recordsPath fs).
Proof.
  rewrite downloadBlobs_run. cbv zeta.
  pose proof (MkdirAll_subseteq (Join recordsPath "_blob") fs) as Hmk.
  destruct (decide (PDSEndpoint ident = "")); [done|].
  pose proof (blobLoop_subseteq fuel (PDSEndpoint ident) (DID ident)
                (Join recordsPath "_blob") "" (final (MkdirAll (Join recordsPath "_blob") fs)))
    as Hloop.
  destruct (blobLoop _ _ _ _ _ _) as [[??]?]. simpl in *. by etrans.
Qed.

(** *** Refused writes and failed fetches are fatal to the pipeline *)

Lemma blobPage_fatal (host did topDir : string) (cids : list string) (fs : FS) :
  fatal_last sync_error Some (events (blobPage host did topDir cids fs))
    (result (blobPage host did topDir cids fs)).
Proof.
  revert fs. induction cids as [|c rest IH]; intros fs; [left; constructor|].
  rewrite blobPage_cons. cbv zeta.
  destruct (fs !! Join topDir c) eqn:Hp.
  - specialize (IH fs). destruct (blobPage host did topDir rest fs) as [[err fs2] t2].
    simpl in *. apply (fatal_last_prefix _ _ [_; _]); [by repeat constructor|done].
  - destruct (SyncGetBlob host c did) as [b|e] eqn:Hget.
    + destruct (WriteFile_err fs _) as [e|] eqn:Hw.
      * simpl. apply (fatal_last_here _ _ [_; _]); [|done].
        repeat constructor. unfold sync_error. simpl. by rewrite Hget.
      * specialize (IH (<[Join topDir c := File b]> fs)).
        destruct (blobPage host did topDir rest _) as [[err fs2] t2]. simpl in *.
        apply (fatal_last_prefix _ _ [_; _; _; _]); [|done].
        repeat constructor. unfold sync_error. simpl. by rewrite Hget.
    + simpl. apply (fatal_last_here _ _ [_]); [by repeat constructor|].
      unfold sync_error. simpl. by rewrite Hget.
Qed.

Lemma fatal_last_Returned (t : list event) (a : option error) :
  fatal_last sync_error Some t a →
  fatal_last sync_error (λ e, Returned (Some e)) t (Returned a).
Proof.
  intros [Hq|(t0 & e & err & -> & H0 & He & ->)]; [by left|].
  by apply (fatal_last_here _ (λ e, Returned (Some e))).
Qed.

Lemma blobLoop_fatal (fuel : nat) (host did topDir cursor : string) (fs : FS) :
  fatal_last sync_error (λ e, Returned (Some e))
    (events (blobLoop fuel host did topDir cursor fs))
    (result (blobLoop fuel host did topDir cursor fs)).
Proof.
  revert cursor fs. induction fuel as [|fuel IH]; intros cursor fs; [left; constructor|].
  rewrite blobLoop_S.
  destruct (SyncListBlobs host cursor did 500 "") as [resp|e];
    [|left; by repeat constructor].
  pose proof (blobPage_fatal host did topDir (Cids resp) fs) as Hpage.
  destruct (blobPage host did topDir (Cids resp) fs) as [[err fs1] t1]. simpl in Hpage.
  assert (fatal_last sync_error (λ e, Returned (Some e))
            (CallSyncListBlobs host cursor did :: t1) (Returned err)) as Hret.
  { apply (fatal_last_prefix _ _ [_]); [by repeat constructor|].
    by apply fatal_last_Returned. }
  destruct err as [e|]; [by apply Hret|].
  destruct (Cursor resp) as [c|]; [|by apply Hret].
  destruct (decide (c = "")); [by apply Hret|].
  specialize (IH c fs1).
  destruct (blobLoop fuel host did topDir c fs1) as [[o fs2] t2]. simpl in *.
  apply (fatal_last_prefix _ _ [_]); [by repeat constructor|].
  eapply fatal_last_seq; [exact Hpage|intros _; exact IH|intros e [=]].
Qed.

Lemma downloadBlobs_fatal (fuel : nat) (ident : Identity) (recordsPath : string) (fs : FS) :
  fatal_last sync_error (λ e, Returned (Some e))
    (events (downloadBlobs fuel ident recordsPath fs))
    (result (downloadBlobs fuel ident recordsPath fs)).
Proof.
  rewrite downloadBlobs_run. cbv zeta.
  destruct (decide (PDSEndpoint ident = "")); [left; by repeat constructor|].
  pose proof (blobLoop_fatal fuel (PDSEndpoint ident) (DID ident)
                (Join recordsPath "_blob") "" (final (MkdirAll (Join recordsPath "_blob") fs)))
    as Hloop.
  destruct (blobLoop _ _ _ _ _ _) as [[o fs2] t2]. simpl in *.
  apply (fatal_last_prefix _ _ [_; _]); [by repeat constructor|done].
Qed.

Lemma downloadRepo_run (ident : Identity) (carPath : string) (fs : FS) :
  downloadRepo ident carPath fs
  = let host := PDSEndpoint ident in
    let pre := [Stdout ("Downloading from " +:+ host +:+ " to: " +:+ carPath +:+ nl);
                CallSyncGetRepo host (DID ident)] in
    if decide (host = EmptyString) then (Some "no PDS endpoint for identity", fs, [])
    else
      match SyncGetRepo host (DID ident) EmptyString with
      | Err e => (Some e, fs, pre)
      | Ok repoBytes =>
          match WriteFile_err fs carPath with
          | Some e => (Some e, fs, pre ++ [CallWriteFile carPath repoBytes (Some e)])
          | None =>
              (None, <[carPath := File repoBytes]> fs,
               pre ++ [CallWriteFile carPath repoBytes None])
          end
      end.
Proof.
  unfold downloadRepo. cbv zeta. destruct (decide (PDSEndpoint ident = "")); [done|].
  rewrite !emit_run.
  destruct (SyncGetRepo _ _ _) as [b|e]; [|done].
  unfold WriteFile. by destruct (WriteFile_err fs carPath).
Qed.



(** *** [processRepo], stage by stage *)

Lemma processRepo_run (fuel : nat) (did : string) (config : Config) (fs : FS) :
  processRepo fuel did config fs
  = match ParseAtIdentifier did with
    | Err e => (Returned (Some e), fs, [])
    | Ok atid =>
        let pre := [Stdout ("Processing: " +:+ atid +:+ nl); CallLookup atid] in
        match Lookup atid with
        | Err e => (Returned (Some e), fs, pre)
        | Ok ident =>
            let carPath := Join (CarsDir config) (DID ident +:+ ".car") in
            let recordsPath := Join (RecordsDir config) (DID ident) in
            let '(err1, fs1, t1) := downloadRepo ident carPath fs in
            match err1 with
            | Some e => (Returned (Some e), fs1, pre ++ t1)
            | None =>
                let '(err2, fs2, t2) := unpackRecords carPath recordsPath fs1 in
                match err2 with
                | Some e => (Returned (Some e), fs2, pre ++ t1 ++ t2)
                | None =>
                    if DownloadBlobs config then
                      let '(o, fs3, t3) := downloadBlobs fuel ident recordsPath fs2 in
                      (o, fs3, pre ++ t1 ++ t2 ++ t3)
                    else (Returned None, fs2, pre ++ t1 ++ t2)
                end
            end
        end
    end.
Proof.
  unfold processRepo. destruct (ParseAtIdentifier did) as [atid|e]; [|done].
  rewrite !emit_run. destruct (Lookup atid) as [ident|e]; [|done].
  rewrite bind_run. cbv zeta.
  destruct (downloadRepo ident _ fs) as [[[e|] fs1] t1]; simpl.
  { by rewrite app_nil_r. }
  rewrite bind_run.
  destruct (unpackRecords _ _ fs1) as [[[e|] fs2] t2]; simpl.
  { by rewrite app_nil_r. }
  destruct (DownloadBlobs config); simpl; [|by rewrite app_nil_r].
  by destruct (downloadBlobs fuel ident _ fs2) as [[??]?].
Qed.


(** A fatal event, wherever the log is cut, is the last event. *)
Lemma fatal_last_inv {A} (F : event → option error) (inj : error → A)
    (t t1 t2 : list event) (a : A) (ev : event) (e : error) :
  fatal_last F inj t a →
  t = t1 ++ ev :: t2 →
  F ev = Some e →
  t2 = [] ∧ a = inj e.
Proof.
  intros [Hq|(t0 & e' & err & -> & H0 & He & ->)] Ht Hev.
  - subst t. apply Forall_app in Hq as [_ Hq]. apply Forall_cons in Hq as [Hq _].
    congruence.
  - revert t0 H0 Ht. induction t1 as [|x t1 IH]; intros t0 H0 Ht.
    + destruct t0 as [|y t0]; simpl in Ht.
      * simplify_eq. by split.
      * simplify_eq. apply Forall_cons in H0 as [H0 _]. congruence.
    + destruct t0 as [|y t0]; simpl in Ht.
      * simplify_eq. by destruct t1.
      * simplify_eq. apply Forall_cons in H0 as [_ H0]. by eapply IH.
Qed.


(** C5. A failed blob fetch aborts the remaining blob work of the
    identifier and leaves its record export as it is: when the pipeline
    reaches the blob synchronizer (the archive was downloaded and
    [unpackRecords] returned nil), the log of [processRepo] is the log of
    the earlier stages followed by the log of [downloadBlobs]; in the
    latter a failed [SyncGetBlob] is the last event and its error is
    returned; and every node of the file system that existed when the
    blob synchronizer started, the exported commit and records among
    them, is still there with the same content when it returns. *)
Theorem failed_blob_fetch_aborts_blob_sync (fuel : nat) (did : string) (config : Config)
    (fs : FS) (atid : string) (ident : Identity) (fs1 fs2 : FS) (t1 t2 : list event) :
  ParseAtIdentifier did = Ok atid →
  Lookup atid = Ok ident →
  DownloadBlobs config = true →
  downloadRepo ident (Join (CarsDir config) (DID ident +:+ ".car")) fs = (None, fs1, t1) →
  unpackRecords (Join (CarsDir config) (DID ident +:+ ".car"))
    (Join (RecordsDir config) (DID ident)) fs1 = (None, fs2, t2) →
  let blobs := downloadBlobs fuel ident (Join (RecordsDir config) (DID ident)) fs2 in
  processRepo fuel did config fs
  = (result blobs, final blobs,
     [Stdout ("Processing: " +:+ atid +:+ nl); CallLookup atid] ++ t1 ++ t2 ++ events blobs)
  ∧ (∀ ta host c did' tb e,
       events blobs = ta ++ CallSyncGetBlob host c did' :: tb →
       SyncGetBlob host c did' = Err e →
       tb = [] ∧ result blobs = Returned (Some e))
  ∧ fs2 ⊆ final blobs.
Proof.
  intros Hparse Hlookup Hblobs Hdl Hunpack blobs. split_and!.
  - rewrite processRepo_run, Hparse. cbv zeta. rewrite Hlookup, Hdl, Hunpack, Hblobs.
    subst blobs. by destruct (downloadBlobs _ _ _ _) as [[??]?].
  - intros ta host c did' tb e Ht Hget.
    eapply (fatal_last_inv fetch_error (λ e, Returned (Some e))); [|exact Ht|].
    + apply fatal_last_fetch_error, downloadBlobs_fatal.
    + simpl. by rewrite Hget.
  - apply downloadBlobs_subseteq.
Qed.


(** *** Fetches of the blob synchronizer *)

Lemma checked_fetches_nil (topDir : string) : checked_fetches topDir [].
Proof. intros [|??] ???? H; discriminate H. Qed.

Lemma checked_fetches_cons (topDir : string) (e : event) (t : list event) :
  fetched e = None → checked_fetches topDir t → checked_fetches topDir (e :: t).
Proof.
  intros He Ht [|x ta] host c did tb Heq; simpl in Heq.
  - simplify_eq.
  - injection Heq as <- Heq. destruct (Ht _ _ _ _ _ Heq) as [ta' ->].
    by exists (e :: ta').
Qed.

Lemma checked_fetches_stat_fetch (topDir host c did : string) (t : list event) :
  checked_fetches topDir t →
  checked_fetches topDir
    (CallStat (Join topDir c) false :: CallSyncGetBlob host c did :: t).
Proof.
  intros Ht [|x [|y ta]] host' c' did' tb Heq; simpl in Heq.
  - simplify_eq.
  - simplify_eq. by exists [].
  - injection Heq as <- <- Heq. destruct (Ht _ _ _ _ _ Heq) as [ta' ->].
    by exists (CallStat (Join topDir c) false :: CallSyncGetBlob host c did :: ta').
Qed.

Lemma checked_fetches_app (topDir : string) (t1 t2 : list event) :
  checked_fetches topDir t1 →
  checked_fetches topDir t2 →
  head t2 ≫= fetched = None →
  checked_fetches topDir (t1 ++ t2).
Proof.
  intros H1 H2 Hhead ta host c did tb Heq.
  apply app_eq_inv in Heq as [(k & Hk1 & Hk2)|(k & Hk1 & Hk2)].
  - destruct k as [|x k]; simpl in Hk2.
    + subst t2. done.
    + injection Hk2 as <- Hk2. by apply (H1 _ _ _ _ _ Hk1).
  - destruct k as [|x k]; simpl in Hk2.
    + subst t2. done.
    + destruct (H2 (x :: k) _ _ _ _ Hk2) as [ta' Hta].
      exists (t1 ++ ta'). by rewrite Hk1, Hta, app_assoc.
Qed.

Section BlobPage.
Variables host did topDir : string.

(** What a page fetches: pairwise different hashes of the page, whose
    paths were free when the page started; after a page without error
    the path of every listed hash is taken. *)
Lemma blobPage_fetches (cids : list string) (fs : FS) :
  NoDup (fetches (events (blobPage host did topDir cids fs)))
  ∧ (∀ c, c ∈ fetches (events (blobPage host did topDir cids fs)) →
       c ∈ cids ∧ fs !! Join topDir c = None)
  ∧ (result (blobPage host did topDir cids fs) = None →
     ∀ c, c ∈ cids → is_Some (final (blobPage host did topDir cids fs) !! Join topDir c))
  ∧ checked_fetches topDir (events (blobPage host did topDir cids fs)).
Proof.
  revert fs. induction cids as [|c0 rest IH]; intros fs.
  { simpl. split_and!; [constructor|by intros ? ?%elem_of_nil|
                        by intros _ ? ?%elem_of_nil|apply checked_fetches_nil]. }
  rewrite blobPage_cons. cbv zeta.
  destruct (fs !! Join topDir c0) as [n0|] eqn:Hp.
  - destruct (IH fs) as (Hnd & Habs & Hpres & Hchk).
    pose proof (blobPage_subseteq host did topDir rest fs) as Hsub.
    destruct (blobPage host did topDir rest fs) as [[err fs2] t2]. simpl in *.
    split_and!.
    + done.
    + intros c Hc. destruct (Habs c Hc) as [? ?]. split; [|done].
      by apply list_elem_of_further.
    + intros Herr c [->|Hc]%elem_of_cons; [|by apply Hpres].
      exists n0. by eapply lookup_weaken.
    + by do 2 (apply checked_fetches_cons; [done|]).
  - destruct (SyncGetBlob host c0 did) as [b|e] eqn:Hget.
    + destruct (WriteFile_err fs _) as [e|] eqn:Hw.
      * simpl. split_and!.
        -- apply NoDup_singleton.
        -- intros c ->%list_elem_of_singleton. split; [apply list_elem_of_here|done].
        -- done.
        -- apply checked_fetches_stat_fetch, checked_fetches_cons; [done|].
           apply checked_fetches_nil.
      * destruct (IH (<[Join topDir c0 := File b]> fs)) as (Hnd & Habs & Hpres & Hchk).
        pose proof (blobPage_subseteq host did topDir rest
                      (<[Join topDir c0 := File b]> fs)) as Hsub.
        destruct (blobPage host did topDir rest _) as [[err fs2] t2]. simpl in *.
        split_and!.
        -- apply NoDup_cons. split; [|done]. intros Hin.
           destruct (Habs c0 Hin) as [_ Hnone]. by rewrite lookup_insert_eq in Hnone.
        -- intros c [->|Hc]%elem_of_cons; [split; [apply list_elem_of_here|done]|].
           destruct (Habs c Hc) as [Hin Hnone]. split; [by apply list_elem_of_further|].
           by apply lookup_insert_None in Hnone as [? _].
        -- intros Herr c [->|Hc]%elem_of_cons; [|by apply Hpres].
           exists (File b). eapply lookup_weaken; [|done]. apply lookup_insert_eq.
        -- apply checked_fetches_stat_fetch.
           by do 2 (apply checked_fetches_cons; [done|]).
    + simpl. split_and!.
      * apply NoDup_singleton.
      * intros c ->%list_elem_of_singleton. split; [apply list_elem_of_here|done].
      * done.
      * apply checked_fetches_stat_fetch, checked_fetches_nil.
Qed.

(** A page all of whose blobs are present fetches nothing and writes
    nothing. *)
Lemma blobPage_present (cids : list string) (fs : FS) :
  (∀ c, c ∈ cids → is_Some (fs !! Join topDir c)) →
  result (blobPage host did topDir cids fs) = None
  ∧ final (blobPage host did topDir cids fs) = fs
  ∧ fetches (events (blobPage host did topDir cids fs)) = [].
Proof.
  induction cids as [|c0 rest IH]; intros Hall; [done|].
  rewrite blobPage_cons. cbv zeta.
  destruct (Hall c0 (list_elem_of_here _ _)) as [n0 Hp]. rewrite Hp.
  destruct IH as (Hres & Hfin & Hfetch).
  { intros c Hc. by apply Hall, list_elem_of_further. }
  by destruct (blobPage host did topDir rest fs) as [[err fs2] t2].
Qed.
End BlobPage.

Section BlobLoop.
Variables host did topDir : string.

Lemma blobLoop_head (fuel : nat) (cursor : string) (fs : FS) :
  head (events (blobLoop fuel host did topDir cursor fs)) ≫= fetched = None.
Proof.
  destruct fuel as [|fuel]; [done|]. rewrite blobLoop_S.
  destruct (SyncListBlobs host cursor did 500 "") as [resp|e]; [|done].
  destruct (blobPage host did topDir (Cids resp) fs) as [[[e|] fs1] t1]; [done|].
  destruct (Cursor resp) as [c|]; [|done].
  destruct (decide (c = "")); [done|].
  by destruct (blobLoop fuel host did topDir c fs1) as [[??]?].
Qed.

Lemma blobLoop_fetches (fuel : nat) (cursor : string) (fs : FS) :
  NoDup (fetches (events (blobLoop fuel host did topDir cursor fs)))
  ∧ (∀ c, c ∈ fetches (events (blobLoop fuel host did topDir cursor fs)) →
       fs !! Join topDir c = None)
  ∧ checked_fetches topDir (events (blobLoop fuel host did topDir cursor fs)).
Proof.
  revert cursor fs. induction fuel as [|fuel IH]; intros cursor fs.
  { simpl. split_and!; [constructor|by intros ? ?%elem_of_nil|apply checked_fetches_nil]. }
  rewrite blobLoop_S.
  destruct (SyncListBlobs host cursor did 500 "") as [resp|e].
  2: { simpl. split_and!; [constructor|by intros ? ?%elem_of_nil|].
       apply checked_fetches_cons; [done|apply checked_fetches_nil]. }
  destruct (blobPage_fetches host did topDir (Cids resp) fs)
    as (Hnd & Habs & Hpres & Hchk).
  pose proof (blobPage_subseteq host did topDir (Cids resp) fs) as Hsub.
  destruct (blobPage host did topDir (Cids resp) fs) as [[err fs1] t1]. simpl in *.
  assert (NoDup (fetches (CallSyncListBlobs host cursor did :: t1))
          ∧ (∀ c, c ∈ fetches (CallSyncListBlobs host cursor did :: t1) →
               fs !! Join topDir c = None)
          ∧ checked_fetches topDir (CallSyncListBlobs host cursor did :: t1)) as Hstop.
  { split_and!; [done|intros c Hc; by apply Habs|by apply checked_fetches_cons]. }
  destruct err as [e|]; [done|].
  destruct (Cursor resp) as [c|]; [|done].
  destruct (decide (c = "")); [done|].
  destruct (IH c fs1) as (Hnd2 & Habs2 & Hchk2).
  pose proof (blobLoop_head fuel c fs1) as Hhead.
  destruct (blobLoop fuel host did topDir c fs1) as [[o fs2] t2]. simpl in *.
  change (fetches (CallSyncListBlobs host cursor did :: t1 ++ t2))
    with (fetches (t1 ++ t2)).
  rewrite fetches_app. split_and!.
  - apply NoDup_app. split_and!; [done| |done].
    intros c' Hc1 Hc2. destruct (Habs c' Hc1) as [Hin _].
    destruct (Hpres eq_refl c' Hin) as [n' Hn']. specialize (Habs2 c' Hc2). congruence.
  - intros c' [Hc|Hc]%elem_of_app; [by apply Habs|].
    specialize (Habs2 c' Hc). by eapply lookup_weaken_None.
  - apply checked_fetches_cons; [done|]. by apply checked_fetches_app.
Qed.

(** After a run that returned nil, a second run over a file system that
    has at least the same paths asks for the same pages, fetches nothing
    and writes nothing. *)
Lemma blobLoop_rerun (fuel : nat) (cursor : string) (fs fs1 : FS) (t1 : list event) :
  blobLoop fuel host did topDir cursor fs = (Returned None, fs1, t1) →
  ∀ fsB, (∀ p, is_Some (fs1 !! p) → is_Some (fsB !! p)) →
    result (blobLoop fuel host did topDir cursor fsB) = Returned None
    ∧ final (blobLoop fuel host did topDir cursor fsB) = fsB
    ∧ fetches (events (blobLoop fuel host did topDir cursor fsB)) = [].
Proof.
  revert cursor fs fs1 t1. induction fuel as [|fuel IH]; intros cursor fs fs1 t1 Hrun;
    [done|].
  rewrite blobLoop_S in Hrun. intros fsB Hdom. rewrite blobLoop_S.
  destruct (SyncListBlobs host cursor did 500 "") as [resp|e]; [|done].
  destruct (blobPage_fetches host did topDir (Cids resp) fs) as (_ & _ & Hpres & _).
  destruct (blobPage host did topDir (Cids resp) fs) as [[[e|] fsp] tp]; [done|].
  simpl in Hpres. specialize (Hpres eq_refl).
  assert (fsp ⊆ fs1 → result (blobPage host did topDir (Cids resp) fsB) = None
            ∧ final (blobPage host did topDir (Cids resp) fsB) = fsB
            ∧ fetches (events (blobPage host did topDir (Cids resp) fsB)) = [])
    as Hpage.
  { intros Hsub. apply blobPage_present. intros c Hc. apply Hdom.
    destruct (Hpres c Hc) as [n Hn]. exists n. by eapply lookup_weaken. }
  destruct (Cursor resp) as [c|].
  - destruct (decide (c = "")).
    + simplify_eq. destruct Hpage as (Hr & Hf & Hfe); [done|].
      by destruct (blobPage host did topDir (Cids resp) fsB) as [[[?|] ?] ?].
    + pose proof (blobLoop_subseteq fuel host did topDir c fsp) as Hsub.
      destruct (blobLoop fuel host did topDir c fsp) as [[o fs2] t2] eqn:Hnext.
      simplify_eq. simpl in Hsub. destruct Hpage as (Hr & Hf & Hfe); [done|].
      destruct (blobPage host did topDir (Cids resp) fsB) as [[[?|] ?] tpB]; [done|].
      simpl in Hf, Hfe. subst.
      destruct (IH c fsp fs1 t2 Hnext fsB Hdom) as (Hr2 & Hf2 & Hfe2).
      destruct (blobLoop fuel host did topDir c fsB) as [[oB fsB2] tB2]. simpl in *.
      split_and!; [done..|].
      change (fetches (CallSyncListBlobs host cursor did :: tpB ++ tB2))
        with (fetches (tpB ++ tB2)).
      by rewrite fetches_app, Hfe, Hfe2.
  - simplify_eq. destruct Hpage as (Hr & Hf & Hfe); [done|].
    by destruct (blobPage host did topDir (Cids resp) fsB) as [[[?|] ?] ?].
Qed.

(** Enough fuel: a listing that ends within [fuel] pages makes the loop
    return. *)
Lemma blobLoop_returns (fuel : nat) (cursor : string) (fs : FS) :
  pages_end fuel host did cursor = true →
  ∃ err, result (blobLoop fuel host did topDir cursor fs) = Returned err.
Proof.
  revert cursor fs. induction fuel as [|fuel IH]; intros cursor fs Hend; [done|].
  rewrite blobLoop_S. simpl in Hend.
  destruct (SyncListBlobs host cursor did 500 "") as [resp|e]; [|by eexists].
  destruct (blobPage host did topDir (Cids resp) fs) as [[[e|] fs1] t1]; [by eexists|].
  destruct (Cursor resp) as [c|]; [|by eexists].
  destruct (decide (c = "")); [by eexists|].
  destruct (IH c fs1 Hend) as [err Herr].
  destruct (blobLoop fuel host did topDir c fs1) as [[o fs2] t2]. by exists err.
Qed.
End BlobLoop.

(** C4 (amended). The blob synchronizer fetches a content hash at most
    once within a run: every fetch comes right after an existence check
    that found nothing, and a hash written earlier in the run is skipped
    when it is listed again. A second run over the file system left by a
    first run that returned without error, against the same remote state,
    returns without error and fetches nothing. *)
Theorem blob_sync_fetches_once (fuel : nat) (ident : Identity) (recordsPath : string)
    (fs : FS) :
  NoDup (fetches (events (downloadBlobs fuel ident recordsPath fs)))
  ∧ checked_fetches (Join recordsPath "_blob")
      (events (downloadBlobs fuel ident recordsPath fs))
  ∧ (result (downloadBlobs fuel ident recordsPath fs) = Returned None →
     result (downloadBlobs fuel ident recordsPath
               (final (downloadBlobs fuel ident recordsPath fs))) = Returned None
     ∧ fetches (events (downloadBlobs fuel ident recordsPath
                          (final (downloadBlobs fuel ident recordsPath fs)))) = []).
Proof.
  rewrite (downloadBlobs_run fuel ident recordsPath fs). cbv zeta.
  set (topDir := Join recordsPath "_blob").
  set (fsm := final (MkdirAll topDir fs)).
  destruct (decide (PDSEndpoint ident = "")) as [Hhost|Hhost].
  { simpl. split_and!; [constructor| |done].
    do 2 (apply checked_fetches_cons; [done|]). apply checked_fetches_nil. }
  destruct (blobLoop_fetches (PDSEndpoint ident) (DID ident) topDir fuel "" fsm)
    as (Hnd & _ & Hchk).
  destruct (blobLoop fuel (PDSEndpoint ident) (DID ident) topDir "" fsm)
    as [[o fs1] t1] eqn:Hloop.
  simpl in *. split_and!; [done| |].
  - by do 2 (apply checked_fetches_cons; [done|]).
  - intros ->. rewrite downloadBlobs_run. cbv zeta. fold topDir.
    rewrite decide_False by done.
    destruct (blobLoop_rerun _ _ _ _ _ _ _ _ Hloop (final (MkdirAll topDir fs1)))
      as (Hr & Hf & Hfe).
    { intros p [n Hn]. exists n. eapply lookup_weaken; [done|apply MkdirAll_subseteq]. }
    by destruct (blobLoop fuel _ _ topDir "" (final (MkdirAll topDir fs1))) as [[??]?].
Qed.

(** *** The pagination *)

Lemma blobPage_listings (host did topDir : string) (cids : list string) (fs : FS) :
  listings (events (blobPage host did topDir cids fs)) = [].
Proof.
  revert fs. induction cids as [|c rest IH]; intros fs; [done|].
  rewrite blobPage_cons. cbv zeta.
  destruct (fs !! Join topDir c).
  - specialize (IH fs). by destruct (blobPage host did topDir rest fs) as [[??]?].
  - destruct (SyncGetBlob host c did) as [b|e]; [|done].
    destruct (WriteFile_err fs _); [done|].
    specialize (IH (<[Join topDir c := File b]> fs)).
    by destruct (blobPage host did topDir rest _) as [[??]?].
Qed.

(** A loop that returns nil has made a last listing call, and that call
    returned an absent or empty cursor. *)
Lemma blobLoop_normal_exit (fuel : nat) (host did topDir cursor : string) (fs fs' : FS)
    (t : list event) :
  blobLoop fuel host did topDir cursor fs = (Returned None, fs', t) →
  ∃ cur resp,
    last (listings t) = Some cur
    ∧ SyncListBlobs host cur did 500 EmptyString = Ok resp
    ∧ (Cursor resp = None ∨ Cursor resp = Some EmptyString).
Proof.
  revert cursor fs fs' t. induction fuel as [|fuel IH]; intros cursor fs fs' t Hrun; [done|].
  rewrite blobLoop_S in Hrun.
  destruct (SyncListBlobs host cursor did 500 "") as [resp|e] eqn:Hlist; [|done].
  pose proof (blobPage_listings host did topDir (Cids resp) fs) as Hpl.
  destruct (blobPage host did topDir (Cids resp) fs) as [[[e|] fs1] t1]; [done|].
  simpl in Hpl.
  destruct (Cursor resp) as [c|] eqn:Hcur.
  - destruct (decide (c = "")) as [->|Hc].
    + simplify_eq. exists cursor, resp.
      change (listings (CallSyncListBlobs host cursor did :: t1))
        with (cursor :: listings t1).
      rewrite Hpl. split_and!; [done..|by right].
    + destruct (blobLoop fuel host did topDir c fs1) as [[o fs2] t2] eqn:Hnext.
      simplify_eq. destruct (IH _ _ _ _ Hnext) as (cur & resp' & Hlast & Hl & Hc').
      exists cur, resp'. split_and!; [|done..].
      change (listings (CallSyncListBlobs host cursor did :: t1 ++ t2))
        with (cursor :: listings (t1 ++ t2)).
      rewrite listings_app, Hpl. simpl.
      destruct (listings t2); [done|]. done.
  - simplify_eq. exists cursor, resp.
    change (listings (CallSyncListBlobs host cursor did :: t1))
      with (cursor :: listings t1).
    rewrite Hpl. split_and!; [done..|by left].
Qed.

(** C7 (amended). The pagination loop of the blob synchronizer follows
    the cursor: after a page that is listed and processed without error,
    an absent or empty cursor ends the loop, which returns nil, and a
    non-empty cursor always causes another listing call, made with that
    cursor; a failed listing call and an error in the page (a failed
    fetch, a refused write) end the loop at once with that error; a loop
    that returned nil has seen an absent or empty cursor in its last
    listing; and when the listing ends within the fuel the loop
    returns. *)
Theorem pagination_follows_cursor (host did topDir : string) :
  (∀ fuel cursor fs resp,
     SyncListBlobs host cursor did 500 EmptyString = Ok resp →
     result (blobPage host did topDir (Cids resp) fs) = None →
     let page := blobPage host did topDir (Cids resp) fs in
     (Cursor resp = None ∨ Cursor resp = Some EmptyString →
        blobLoop (S fuel) host did topDir cursor fs
        = (Returned None, final page, CallSyncListBlobs host cursor did :: events page)
        ∧ listings (events (blobLoop (S fuel) host did topDir cursor fs)) = [cursor])
     ∧ (∀ c, Cursor resp = Some c → c ≠ EmptyString →
          let next := blobLoop (S fuel) host did topDir c (final page) in
          blobLoop (S (S fuel)) host did topDir cursor fs
          = (result next, final next,
             CallSyncListBlobs host cursor did :: events page ++ events next)
          ∧ head (events next) = Some (CallSyncListBlobs host c did)))
  ∧ (∀ fuel cursor fs e,
       SyncListBlobs host cursor did 500 EmptyString = Err e →
       blobLoop (S fuel) host did topDir cursor fs
       = (Returned (Some e), fs, [CallSyncListBlobs host cursor did]))
  ∧ (∀ fuel cursor fs resp e,
       SyncListBlobs host cursor did 500 EmptyString = Ok resp →
       result (blobPage host did topDir (Cids resp) fs) = Some e →
       result (blobLoop (S fuel) host did topDir cursor fs) = Returned (Some e)
       ∧ listings (events (blobLoop (S fuel) host did topDir cursor fs)) = [cursor])
  ∧ (∀ fuel cursor fs,
       result (blobLoop fuel host did topDir cursor fs) = Returned None →
       ∃ cur resp,
         last (listings (events (blobLoop fuel host did topDir cursor fs))) = Some cur
         ∧ SyncListBlobs host cur did 500 EmptyString = Ok resp
         ∧ (Cursor resp = None ∨ Cursor resp = Some EmptyString))
  ∧ (∀ fuel cursor fs,
       pages_end fuel host did cursor = true →
       ∃ err, result (blobLoop fuel host did topDir cursor fs) = Returned err).
Proof.
  split_and!.
  - intros fuel cursor fs resp Hlist Hpage page. subst page.
    pose proof (blobPage_listings host did topDir (Cids resp) fs) as Hpl.
    destruct (blobPage host did topDir (Cids resp) fs) as [[err fs1] t1] eqn:Hp.
    simpl in Hpage, Hpl. subst err. split.
    + intros Hcur. rewrite blobLoop_S, Hlist, Hp. simpl.
      destruct Hcur as [->| ->]; simpl.
      * split; [done|].
        change (listings (CallSyncListBlobs host cursor did :: t1))
          with (cursor :: listings t1). by rewrite Hpl.
      * split; [done|].
        change (listings (CallSyncListBlobs host cursor did :: t1))
          with (cursor :: listings t1). by rewrite Hpl.
    + intros c Hcur Hc next. subst next.
      change (final (None, fs1, t1)) with fs1.
      change (events (None, fs1, t1)) with t1. split.
      * rewrite (blobLoop_S (S fuel) host did topDir cursor), Hlist, Hp, Hcur.
        rewrite decide_False by done.
        by destruct (blobLoop (S fuel) host did topDir c fs1) as [[??]?].
      * rewrite blobLoop_S.
        destruct (SyncListBlobs host c did 500 "") as [resp'|e]; [|done].
        destruct (blobPage host did topDir (Cids resp') fs1) as [[[e|] fs2] t2]; [done|].
        destruct (Cursor resp') as [c'|]; [|done].
        destruct (decide (c' = "")); [done|].
        by destruct (blobLoop fuel host did topDir c' fs2) as [[??]?].
  - intros fuel cursor fs e Hlist. by rewrite blobLoop_S, Hlist.
  - intros fuel cursor fs resp e Hlist Hpage.
    pose proof (blobPage_listings host did topDir (Cids resp) fs) as Hpl.
    rewrite blobLoop_S, Hlist.
    destruct (blobPage host did topDir (Cids resp) fs) as [[err fs1] t1].
    simpl in Hpage, Hpl. subst err. simpl. split; [done|].
    change (listings (CallSyncListBlobs host cursor did :: t1))
      with (cursor :: listings t1). by rewrite Hpl.
  - intros fuel cursor fs Hres.
    destruct (blobLoop fuel host did topDir cursor fs) as [[o fs'] t] eqn:Hrun.
    simpl in Hres. subst o. by eapply blobLoop_normal_exit.
  - intros fuel cursor fs. apply blobLoop_returns.
Qed.

(** *** The batch driver *)

Lemma downloadBlobs_returns (fuel : nat) (ident : Identity) (recordsPath : string) (fs : FS) :
  pages_end fuel (PDSEndpoint ident) (DID ident) EmptyString = true →
  ∃ err, result (downloadBlobs fuel ident recordsPath fs) = Returned err.
Proof.
  intros Hend. rewrite downloadBlobs_run. cbv zeta.
  destruct (decide (PDSEndpoint ident = "")); [by eexists|].
  destruct (blobLoop_returns (PDSEndpoint ident) (DID ident) (Join recordsPath "_blob")
              fuel "" (final (MkdirAll (Join recordsPath "_blob") fs)) Hend) as [err Herr].
  destruct (blobLoop _ _ _ _ _ _) as [[??]?]. by exists err.
Qed.

Lemma processRepo_returns (fuel : nat) (did : string) (config : Config) (fs : FS) :
  (DownloadBlobs config = true →
   ∀ host did', pages_end fuel host did' EmptyString = true) →
  ∃ err, result (processRepo fuel did config fs) = Returned err.
Proof.
  intros Hend. rewrite processRepo_run.
  destruct (ParseAtIdentifier did) as [atid|e]; [|by eexists].
  cbv zeta. destruct (Lookup atid) as [ident|e]; [|by eexists].
  destruct (downloadRepo ident _ fs) as [[[e|] fs1] t1]; [by eexists|].
  destruct (unpackRecords _ _ fs1) as [[[e|] fs2] t2]; [by eexists|].
  destruct (DownloadBlobs config); [|by eexists].
  destruct (downloadBlobs_returns fuel ident (Join (RecordsDir config) (DID ident)) fs2)
    as [err Herr]; [by apply Hend|].
  destruct (downloadBlobs _ _ _ _) as [[??]?]. by exists err.
Qed.

Lemma runLoop_cons (fuel : nat) (did : string) (rest : list string) (config : Config)
    (fs : FS) (err : option error) :
  result (processRepo fuel did config fs) = Returned err →
  runLoop fuel (did :: rest) config fs
  = (result (runLoop fuel rest config (final (processRepo fuel did config fs))),
     final (runLoop fuel rest config (final (processRepo fuel did config fs))),
     events (processRepo fuel did config fs)
     ++ report did (Returned err)
     ++ events (runLoop fuel rest config (final (processRepo fuel did config fs)))).
Proof.
  intros Hres. simpl. rewrite bind_run.
  destruct (processRepo fuel did config fs) as [[o fs1] t1]. simpl in *. subst o.
  destruct err as [e|].
  - rewrite emit_run. by destruct (runLoop fuel rest config fs1) as [[??]?].
  - by destruct (runLoop fuel rest config fs1) as [[??]?].
Qed.

Lemma runLoop_returns (fuel : nat) (dids : list string) (config : Config) (fs : FS) :
  (DownloadBlobs config = true →
   ∀ host did, pages_end fuel host did EmptyString = true) →
  result (runLoop fuel dids config fs) = Returned None.
Proof.
  intros Hend. revert fs. induction dids as [|did rest IH]; intros fs; [done|].
  destruct (processRepo_returns fuel did config fs Hend) as [err Herr].
  rewrite (runLoop_cons _ _ _ _ _ _ Herr). apply IH.
Qed.



(** *** [ensureDirectories], [run] and [main] *)

Lemma MkdirAll_result (p : string) (fs : FS) :
  result (MkdirAll p fs) = MkdirAll_err fs p.
Proof.
  unfold MkdirAll. destruct (MkdirAll_err fs p); [done|]. by destruct (fs !! p).
Qed.

Lemma ensureDirs_cons (dir : string) (rest : list string) (fs : FS) :
  ensureDirs (dir :: rest) fs
  = match MkdirAll_err fs dir with
    | Some e =>
        (Some ("failed to create directory " +:+ dir +:+ ": " +:+ e),
         final (MkdirAll dir fs), [CallMkdirAll dir])
    | None =>
        let '(err, fs2, t2) := ensureDirs rest (final (MkdirAll dir fs)) in
        (err, fs2, CallMkdirAll dir :: t2)
    end.
Proof.
  simpl. rewrite bind_run, MkdirAll_run, MkdirAll_result.
  destruct (MkdirAll_err fs dir); [done|].
  by destruct (ensureDirs rest _) as [[??]?].
Qed.

Lemma MkdirAll_refused (p : string) (fs : FS) (e : error) :
  MkdirAll_err fs p = Some e → final (MkdirAll p fs) = fs.
Proof. intros H. unfold MkdirAll. by rewrite H. Qed.

Lemma ensureDirectories_run (config : Config) (fs : FS) :
  ensureDirectories config fs
  = match MkdirAll_err fs (CarsDir config) with
    | Some e =>
        (Some ("failed to create directory " +:+ CarsDir config +:+ ": " +:+ e), fs,
         [CallMkdirAll (CarsDir config)])
    | None =>
        let fs1 := final (MkdirAll (CarsDir config) fs) in
        match MkdirAll_err fs1 (RecordsDir config) with
        | Some e =>
            (Some ("failed to create directory " +:+ RecordsDir config +:+ ": " +:+ e), fs1,
             [CallMkdirAll (CarsDir config); CallMkdirAll (RecordsDir config)])
        | None =>
            (None, final (MkdirAll (RecordsDir config) fs1),
             [CallMkdirAll (CarsDir config); CallMkdirAll (RecordsDir config)])
        end
    end.
Proof.
  unfold ensureDirectories. rewrite ensureDirs_cons.
  destruct (MkdirAll_err fs (CarsDir config)) as [e|] eqn:H1.
  { by rewrite (MkdirAll_refused _ _ _ H1). }
  rewrite ensureDirs_cons. cbv zeta.
  destruct (MkdirAll_err _ (RecordsDir config)) as [e|] eqn:H2; [|done].
  by rewrite (MkdirAll_refused _ _ _ H2).
Qed.

Lemma ensureDirectories_ok_events (config : Config) (fs : FS) :
  result (ensureDirectories config fs) = None →
  events (ensureDirectories config fs)
  = [CallMkdirAll (CarsDir config); CallMkdirAll (RecordsDir config)].
Proof.
  rewrite ensureDirectories_run.
  destruct (MkdirAll_err fs (CarsDir config)); [done|]. cbv zeta.
  by destruct (MkdirAll_err _ (RecordsDir config)).
Qed.


(** X1. When a directory cannot be created [run] returns the error
    [failed to create directory <dir>: <cause>] for that directory and has
    done nothing but the [os.MkdirAll] calls: the identifier file is not
    read and no identifier is processed. *)
Theorem run_needs_directories (fuel : nat) (config : Config) (fs : FS) (msg : error) :
  result (ensureDirectories config fs) = Some msg →
  result (run fuel config fs) = Returned (Some msg)
  ∧ (∃ dir e, dir ∈ [CarsDir config; RecordsDir config]
       ∧ msg = "failed to create directory " +:+ dir +:+ ": " +:+ e)
  ∧ events (run fuel config fs)
    `prefix_of` [CallMkdirAll (CarsDir config); CallMkdirAll (RecordsDir config)]
  ∧ fs ⊆ final (run fuel config fs).
Proof.
  intros Hres. unfold run. rewrite bind_run.
  pose proof (MkdirAll_subseteq (CarsDir config) fs) as Hsub1.
  rewrite ensureDirectories_run in Hres |- *.
  destruct (MkdirAll_err fs (CarsDir config)) as [e|] eqn:H1; simpl in *.
  - simplify_eq. split_and!; [done| |by eexists [_]|done].
    exists (CarsDir config), e. split; [apply list_elem_of_here|done].
  - destruct (MkdirAll_err _ (RecordsDir config)) as [e|] eqn:H2; simpl in *; [|done].
    simplify_eq. split_and!; [done| |by exists []|done].
    exists (RecordsDir config), e.
    split; [apply list_elem_of_further, list_elem_of_here|done].
Qed.

(** X2. When the directories exist and the identifier file cannot be
    read, [run] returns [failed to get DIDs from file: failed to read file:
    <cause>]; after the read attempt it does nothing more: no identifier is
    processed and no file is written. *)
Theorem run_needs_identifier_file (fuel : nat) (config : Config) (fs : FS) (e : error) :
  result (ensureDirectories config fs) = None →
  read_node (DIDsFile config) (final (ensureDirectories config fs)) = Err e →
  run fuel config fs
  = (Returned (Some ("failed to get DIDs from file: " +:+ "failed to read file: " +:+ e)),
     final (ensureDirectories config fs),
     [CallMkdirAll (CarsDir config); CallMkdirAll (RecordsDir config);
      CallReadFile (DIDsFile config)]).
Proof.
  intros Hdirs Hread. unfold run. rewrite bind_run.
  pose proof (ensureDirectories_ok_events config fs Hdirs) as Hev.
  destruct (ensureDirectories config fs) as [[err fs1] t1]. simpl in *. subst err t1.
  unfold getActivatedDIDs, readDIDsFromFile. rewrite !bind_run.
  unfold ReadFile at 1. by rewrite Hread.
Qed.

(** *** Nothing is ever removed *)

Lemma WriteFile_dom (p : string) (data : bytes) (fs : FS) :
  dom fs ⊆ dom (final (WriteFile p data fs)).
Proof.
  unfold WriteFile. destruct (WriteFile_err fs p); [done|]. simpl.
  apply dom_insert_subseteq.
Qed.

Lemma MkdirAll_dom (p : string) (fs : FS) : dom fs ⊆ dom (final (MkdirAll p fs)).
Proof. apply subseteq_dom, MkdirAll_subseteq. Qed.

Lemma downloadRepo_dom (ident : Identity) (carPath : string) (fs : FS) :
  dom fs ⊆ dom (final (downloadRepo ident carPath fs)).
Proof.
  rewrite downloadRepo_run. cbv zeta.
  destruct (decide (PDSEndpoint ident = "")); [done|].
  destruct (SyncGetRepo _ _ _); [|done].
  destruct (WriteFile_err fs carPath); [done|]. apply dom_insert_subseteq.
Qed.

Lemma walkLeaves_dom (ls : list (string * string)) (werr : option error)
    (cb : string → string → M (option error)) (fs : FS) :
  (∀ k v fs', dom fs' ⊆ dom (final (cb k v fs'))) →
  dom fs ⊆ dom (final (walkLeaves ls werr cb fs)).
Proof.
  intros Hcb. revert fs. induction ls as [|[k v] rest IH]; intros fs; [done|].
  simpl. rewrite bind_run. specialize (Hcb k v fs).
  destruct (cb k v fs) as [[[e|] fs1] t1]; [done|].
  specialize (IH fs1). destruct (walkLeaves rest werr cb fs1) as [[??]?].
  simpl in *. by etrans.
Qed.

Lemma recordCallback_dom (r : Repo SignedCommitT RecordT) (recordsPath k v : string)
    (fs : FS) :
  dom fs ⊆ dom (final (recordCallback r recordsPath k v fs)).
Proof.
  pose proof (MkdirAll_dom (Dir (Join recordsPath k)) fs) as Hmk.
  destruct (GetRecord r k) as [[c rec]|e] eqn:Hg.
  - destruct (MarshalRecord rec) as [j|e] eqn:Hm.
    + rewrite (recordCallback_write _ _ _ _ _ _ _ _ Hg Hm). cbv zeta.
      destruct (WriteFile_err _ _); [done|]. simpl.
      etrans; [exact Hmk|apply dom_insert_subseteq].
    + by rewrite (recordCallback_marshal_err _ _ _ _ _ _ _ _ Hg Hm).
  - by rewrite (recordCallback_get_err _ _ _ _ _ _ Hg).
Qed.

Lemma unpackRecords_dom (carPath recordsPath : string) (fs : FS) :
  dom fs ⊆ dom (final (unpackRecords carPath recordsPath fs)).
Proof.
  unfold unpackRecords. rewrite bind_run. unfold Open at 1.
  destruct (read_node carPath fs) as [content|e]; [|done].
  destruct (ReadRepoFromCar content) as [r|e]; [|done].
  rewrite emit_run, bind_run, MkdirAll_run.
  pose proof (MkdirAll_dom (Dir (Join recordsPath "_commit")) fs) as Hmk.
  destruct (MarshalCommit (SignedCommit r)) as [j|e]; [|done].
  rewrite bind_run. unfold WriteFile at 1.
  destruct (WriteFile_err _ _); [done|].
  pose proof (walkLeaves_dom (leaves r) (walk_err r) (recordCallback r recordsPath)
                (<[Join recordsPath "_commit" +:+ ".json" := File j]>
                   (final (MkdirAll (Dir (Join recordsPath "_commit")) fs)))
                (recordCallback_dom r recordsPath)) as Hwalk.
  unfold ForEach. destruct (walkLeaves _ _ _ _) as [[??]?]. simpl in *.
  etrans; [exact Hmk|]. etrans; [apply dom_insert_subseteq|exact Hwalk].
Qed.

Lemma processRepo_dom (fuel : nat) (did : string) (config : Config) (fs : FS) :
  dom fs ⊆ dom (final (processRepo fuel did config fs)).
Proof.
  rewrite processRepo_run.
  destruct (ParseAtIdentifier did) as [atid|e]; [|done]. cbv zeta.
  destruct (Lookup atid) as [ident|e]; [|done].
  pose proof (downloadRepo_dom ident (Join (CarsDir config) (DID ident +:+ ".car")) fs) as H1.
  destruct (downloadRepo ident _ fs) as [[[e|] fs1] t1]; [done|].
  pose proof (unpackRecords_dom (Join (CarsDir config) (DID ident +:+ ".car"))
                (Join (RecordsDir config) (DID ident)) fs1) as H2.
  destruct (unpackRecords _ _ fs1) as [[[e|] fs2] t2]; simpl in *; [by etrans|].
  destruct (DownloadBlobs config); [|by etrans].
  pose proof (downloadBlobs_subseteq fuel ident (Join (RecordsDir config) (DID ident)) fs2)
    as H3.
  destruct (downloadBlobs _ _ _ _) as [[??]?]. simpl in *.
  etrans; [exact H1|]. etrans; [exact H2|]. by apply subseteq_dom.
Qed.

Lemma runLoop_dom (fuel : nat) (dids : list string) (config : Config) (fs : FS) :
  dom fs ⊆ dom (final (runLoop fuel dids config fs)).
Proof.
  revert fs. induction dids as [|did rest IH]; intros fs; [done|].
  simpl. rewrite bind_run. pose proof (processRepo_dom fuel did config fs) as Hp.
  destruct (processRepo fuel did config fs) as [[o fs1] t1]. simpl in Hp.
  specialize (IH fs1).
  destruct o as [[e|]|]; [rewrite emit_run| |done];
    destruct (runLoop fuel rest config fs1) as [[??]?]; simpl in *; by etrans.
Qed.

Lemma readDIDsFromFile_final (filename : string) (fs : FS) :
  final (readDIDsFromFile filename fs) = fs.
Proof.
  unfold readDIDsFromFile. rewrite bind_run. unfold ReadFile at 1.
  by destruct (read_node filename fs).
Qed.

Lemma run_dom (fuel : nat) (config : Config) (fs : FS) :
  dom fs ⊆ dom (final (run fuel config fs)).
Proof.
  unfold run. rewrite bind_run.
  assert (fs ⊆ final (ensureDirectories config fs)) as Hdirs.
  { rewrite ensureDirectories_run.
    pose proof (MkdirAll_subseteq (CarsDir config) fs) as H1.
    destruct (MkdirAll_err fs (CarsDir config)); [done|]. cbv zeta.
    pose proof (MkdirAll_subseteq (RecordsDir config)
                  (final (MkdirAll (CarsDir config) fs))) as H2.
    destruct (MkdirAll_err _ (RecordsDir config)); simpl; [done|by etrans]. }
  destruct (ensureDirectories config fs) as [[[e|] fs1] t1]; simpl in *;
    [by apply subseteq_dom|].
  rewrite bind_run. unfold getActivatedDIDs.
  pose proof (readDIDsFromFile_final (DIDsFile config) fs1) as Hread.
  destruct (readDIDsFromFile (DIDsFile config) fs1) as [[[dids|e] fs2] t2];
    simpl in Hread; subst fs2; simpl; [|by apply subseteq_dom].
  pose proof (runLoop_dom fuel dids config fs1) as Hloop.
  destruct (runLoop fuel dids config fs1) as [[??]?]. simpl in *.
  etrans; [by apply subseteq_dom|done].
Qed.

Lemma main_run (prog : string) (rest : list string) (getenv : string → string)
    (fuel : nat) (fs : FS) :
  main (prog :: rest) getenv fuel fs
  = let config := mainConfig (prog :: rest) getenv in
    if decide (DIDsFile config = EmptyString) then
      (Exit 1, fs,
       [Stderr ("error: Please provide DIDs file path as argument or set "
                +:+ "DIDS_FILE environment variable" +:+ nl);
        Stderr ("usage: " +:+ prog +:+ " <dids-file>" +:+ nl)])
    else
      let '(o, fs1, t1) := run fuel config fs in
      match o with
      | OutOfFuel => (NoFuel, fs1, t1)
      | Returned (Some e) => (Exit 1, fs1, t1 ++ [Stderr ("error: " +:+ e +:+ nl)])
      | Returned None => (Exit 0, fs1, t1)
      end.
Proof.
  unfold main. cbv zeta.
  destruct (decide (DIDsFile (mainConfig (prog :: rest) getenv) = "")); [done|].
  rewrite bind_run.
  destruct (run fuel _ fs) as [[[[e|]|] fs1] t1]; simpl; by rewrite ?app_nil_r.
Qed.

(** X6. The program never removes a file or a directory: every path that
    is on the file system when [main] starts is still on it when [main]
    ends, whatever fails on the way. *)
Theorem main_never_removes (args : list string) (getenv : string → string) (fuel : nat)
    (fs : FS) :
  dom fs ⊆ dom (final (main args getenv fuel fs)).
Proof.
  destruct args as [|prog rest].
  - unfold main. cbv zeta. pose proof (run_dom fuel (mainConfig [] getenv) fs) as Hrun.
    destruct (decide (DIDsFile (mainConfig [] getenv) = "")); [done|].
    rewrite bind_run.
    by destruct (run fuel _ fs) as [[[[e|]|] fs1] t1].
  - rewrite main_run. cbv zeta.
    pose proof (run_dom fuel (mainConfig (prog :: rest) getenv) fs) as Hrun.
    destruct (decide (DIDsFile (mainConfig (prog :: rest) getenv) = "")); [done|].
    by destruct (run fuel _ fs) as [[[[e|]|] fs1] t1].
Qed.

Lemma run_result_ok (fuel : nat) (config : Config) (fs : FS) (content : bytes) :
  (DownloadBlobs config = true →
   ∀ host did, pages_end fuel host did EmptyString = true) →
  result (ensureDirectories config fs) = None →
  read_node (DIDsFile config) (final (ensureDirectories config fs)) = Ok content →
  result (run fuel config fs) = Returned None.
Proof.
  intros Hend Hdirs Hread. unfold run. rewrite bind_run.
  destruct (ensureDirectories config fs) as [[err fs1] t1]. simpl in *. subst err.
  unfold getActivatedDIDs, readDIDsFromFile. rewrite !bind_run. unfold ReadFile at 1.
  rewrite Hread. simpl.
  pose proof (runLoop_returns fuel
                (fold_left appendDID (Split_nl (string_of_list_byte content)) [])
                config fs1 Hend) as Hloop.
  by destruct (runLoop fuel _ config fs1) as [[??]?].
Qed.

(** X5. The exit status of [main] tells whether the batch could start, not
    whether every identifier succeeded. With an identifier file named,
    [main] ends with status 0 as soon as the directories are created and the
    file is read, whatever [processRepo] returns for the identifiers (the
    fuel covering the blob listings); it ends with status 1, after an
    [error:] line on standard error, when a directory cannot be created or
    the file cannot be read. Without an identifier file it prints the
    usage and ends with status 1, the file system untouched. *)
Theorem main_exit_status (prog : string) (rest : list string) (getenv : string → string)
    (fuel : nat) (fs : FS) :
  let config := mainConfig (prog :: rest) getenv in
  (DownloadBlobs config = true →
   ∀ host did, pages_end fuel host did EmptyString = true) →
  (DIDsFile config = EmptyString →
     main (prog :: rest) getenv fuel fs
     = (Exit 1, fs,
        [Stderr ("error: Please provide DIDs file path as argument or set "
                 +:+ "DIDS_FILE environment variable" +:+ nl);
         Stderr ("usage: " +:+ prog +:+ " <dids-file>" +:+ nl)]))
  ∧ (DIDsFile config ≠ EmptyString →
     (∀ content,
        result (ensureDirectories config fs) = None →
        read_node (DIDsFile config) (final (ensureDirectories config fs)) = Ok content →
        result (main (prog :: rest) getenv fuel fs) = Exit 0)
     ∧ (∀ msg,
          result (ensureDirectories config fs) = Some msg →
          result (main (prog :: rest) getenv fuel fs) = Exit 1
          ∧ last (events (main (prog :: rest) getenv fuel fs))
            = Some (Stderr ("error: " +:+ msg +:+ nl)))
     ∧ (∀ e,
          result (ensureDirectories config fs) = None →
          read_node (DIDsFile config) (final (ensureDirectories config fs)) = Err e →
          result (main (prog :: rest) getenv fuel fs) = Exit 1
          ∧ last (events (main (prog :: rest) getenv fuel fs))
            = Some (Stderr ("error: " +:+ "failed to get DIDs from file: "
                            +:+ "failed to read file: " +:+ e +:+ nl)))).
Proof.
  intros config Hend. rewrite main_run. cbv zeta. fold config. split.
  - intros Hfile. by rewrite decide_True.
  - intros Hfile. rewrite decide_False by done. split_and!.
    + intros content Hdirs Hread.
      pose proof (run_result_ok fuel config fs content Hend Hdirs Hread) as Hrun.
      destruct (run fuel config fs) as [[o fs1] t1]. simpl in Hrun. by subst o.
    + intros msg Hdirs.
      assert (result (run fuel config fs) = Returned (Some msg)) as Hrun.
      { unfold run. rewrite bind_run.
        destruct (ensureDirectories config fs) as [[err fs1] t1]. simpl in *. by subst err. }
      destruct (run fuel config fs) as [[o fs1] t1]. simpl in Hrun. subst o. simpl.
      split; [done|]. by rewrite last_snoc.
    + intros e Hdirs Hread.
      assert (result (run fuel config fs)
              = Returned (Some ("failed to get DIDs from file: "
                                +:+ "failed to read file: " +:+ e))) as Hrun.
      { unfold run. rewrite bind_run.
        destruct (ensureDirectories config fs) as [[err fs1] t1]. simpl in *. subst err.
        unfold getActivatedDIDs, readDIDsFromFile. rewrite !bind_run. unfold ReadFile at 1.
        by rewrite Hread. }
      destruct (run fuel config fs) as [[o fs1] t1]. simpl in Hrun. subst o. simpl.
      split; [done|]. by rewrite last_snoc.
Qed.

(** X4. A command-line argument takes the place of [DIDS_FILE]: when an
    argument is given, [main] behaves the same whatever the value of the
    variable [DIDS_FILE] and whatever further arguments follow, as long as
    [DOWNLOAD_BLOBS] reads the same. *)
Theorem main_argument_overrides_environment (prog arg : string) (rest rest' : list string)
    (getenv getenv' : string → string) (fuel : nat) (fs : FS) :
  getenv "DOWNLOAD_BLOBS" = getenv' "DOWNLOAD_BLOBS" →
  main (prog :: arg :: rest) getenv fuel fs = main (prog :: arg :: rest') getenv' fuel fs
  ∧ DIDsFile (mainConfig (prog :: arg :: rest) getenv) = arg.
Proof.
  intros Hblobs. split; [|done].
  assert (mainConfig (prog :: arg :: rest) getenv = mainConfig (prog :: arg :: rest') getenv')
    as Hconfig.
  { unfold mainConfig. by rewrite Hblobs. }
  unfold main. cbv zeta. by rewrite Hconfig.
Qed.

(** *** A batch in which nothing resolves *)

Lemma processRepo_unresolved (fuel : nat) (did : string) (config : Config) (fs : FS) :
  unresolved did →
  result (processRepo fuel did config fs) = Returned (Some (resolution_error did))
  ∧ final (processRepo fuel did config fs) = fs
  ∧ exports (events (processRepo fuel did config fs)) = []
  ∧ omap stderr_line (events (processRepo fuel did config fs)) = [].
Proof.
  unfold unresolved, resolution_error. intros Hun. rewrite processRepo_run.
  destruct (ParseAtIdentifier did) as [atid|e]; [|done]. cbv zeta.
  by destruct (Lookup atid) as [ident|e].
Qed.

(** X7. Identifiers that do not resolve cost nothing but a report: over a
    list in which no identifier has an accepted syntax and a known identity,
    the loop of [run] leaves the file system as it was, exports nothing,
    writes one [error processing <did>: <cause>] line per identifier on
    standard error, in list order, and returns nil. *)
Theorem unresolved_batch_only_reports (fuel : nat) (dids : list string) (config : Config)
    (fs : FS) :
  Forall unresolved dids →
  result (runLoop fuel dids config fs) = Returned None
  ∧ final (runLoop fuel dids config fs) = fs
  ∧ exports (events (runLoop fuel dids config fs)) = []
  ∧ omap stderr_line (events (runLoop fuel dids config fs))
    = (λ did, "error processing " +:+ did +:+ ": " +:+ resolution_error did +:+ nl) <$> dids.
Proof.
  induction 1 as [|did rest Hun Hrest IH]; [done|].
  destruct (processRepo_unresolved fuel did config fs Hun) as (Hres & Hfin & Hexp & Herr).
  rewrite (runLoop_cons fuel did rest config fs _ Hres). rewrite Hfin.
  destruct IH as (IHres & IHfin & IHexp & IHerr).
  destruct (runLoop fuel rest config fs) as [[o fs1] t1]. simpl in *.
  split_and!; [done..| |].
  - rewrite exports_app, Hexp. exact IHexp.
  - rewrite omap_app, Herr, app_nil_l.
    rewrite (omap_cons_Some stderr_line (Stderr _) _ t1 eq_refl). by rewrite IHerr.
Qed.

(** *** More on the stages of the pipeline *)

(** X8. [downloadRepo] touches one path only, the CAR file, and only
    after a successful fetch: every other path keeps its node, and when the
    identity has no PDS endpoint or the fetch fails the file system is left
    as it was (an older archive survives a failed download) and an error is
    returned; without an endpoint no network call is made at all. *)
Theorem downloadRepo_touches_only_car_file (ident : Identity) (carPath : string) (fs : FS) :
  (∀ p, p ≠ carPath → final (downloadRepo ident carPath fs) !! p = fs !! p)
  ∧ (PDSEndpoint ident = EmptyString →
     downloadRepo ident carPath fs = (Some "no PDS endpoint for identity", fs, []))
  ∧ (∀ e, PDSEndpoint ident ≠ EmptyString →
       SyncGetRepo (PDSEndpoint ident) (DID ident) EmptyString = Err e →
       result (downloadRepo ident carPath fs) = Some e
       ∧ final (downloadRepo ident carPath fs) = fs
       ∧ exports (events (downloadRepo ident carPath fs)) = []).
Proof.
  rewrite downloadRepo_run. cbv zeta. split_and!.
  - intros p Hp. destruct (decide (PDSEndpoint ident = "")); [done|].
    destruct (SyncGetRepo _ _ _); [|done].
    destruct (WriteFile_err fs carPath); [done|]. simpl.
    by rewrite lookup_insert_ne.
  - intros Hhost. by rewrite decide_True.
  - intros e Hhost Hget. rewrite decide_False by done. by rewrite Hget.
Qed.

(** X9. The decoder reads the bytes that were just fetched: when the
    archive of an identifier is downloaded and written but does not decode,
    [processRepo] returns the error of the decoder, the CAR file holding the
    fetched bytes is the only unit exported, and no record directory, no
    commit and no blob call follows. *)
Theorem processRepo_undecodable_archive (fuel : nat) (did atid : string) (ident : Identity)
    (config : Config) (fs : FS) (repoBytes : bytes) (e : error) :
  ParseAtIdentifier did = Ok atid →
  Lookup atid = Ok ident →
  PDSEndpoint ident ≠ EmptyString →
  SyncGetRepo (PDSEndpoint ident) (DID ident) EmptyString = Ok repoBytes →
  WriteFile_err fs (Join (CarsDir config) (DID ident +:+ ".car")) = None →
  ReadRepoFromCar repoBytes = Err e →
  let carPath := Join (CarsDir config) (DID ident +:+ ".car") in
  processRepo fuel did config fs
  = (Returned (Some e), <[carPath := File repoBytes]> fs,
     [Stdout ("Processing: " +:+ atid +:+ nl);
      CallLookup atid;
      Stdout ("Downloading from " +:+ PDSEndpoint ident +:+ " to: " +:+ carPath +:+ nl);
      CallSyncGetRepo (PDSEndpoint ident) (DID ident);
      CallWriteFile carPath repoBytes None;
      CallOpen carPath]).
Proof.
  intros Hparse Hlookup Hhost Hget Hw Hread carPath.
  rewrite processRepo_run, Hparse. cbv zeta. rewrite Hlookup.
  rewrite downloadRepo_run. cbv zeta. rewrite decide_False by done.
  rewrite Hget, Hw. fold carPath.
  unfold unpackRecords. rewrite bind_run. unfold Open at 1. unfold read_node.
  rewrite lookup_insert_eq. by rewrite Hread.
Qed.

Lemma walkLeaves_no_blob_call (r : Repo SignedCommitT RecordT) (recordsPath : string)
    (ls : list (string * string)) (werr : option error) (fs : FS) :
  Forall (λ e, blob_call e = false)
    (events (walkLeaves ls werr (recordCallback r recordsPath) fs)).
Proof.
  revert fs. induction ls as [|[k v] rest IH]; intros fs; [constructor|].
  rewrite walkLeaves_cons.
  assert (Forall (λ e, blob_call e = false) (events (recordCallback r recordsPath k v fs)))
    as Hcb.
  { destruct (GetRecord r k) as [[c rec]|e] eqn:Hg.
    - destruct (MarshalRecord rec) as [j|e] eqn:Hm.
      + rewrite (recordCallback_write _ _ _ _ _ _ _ _ Hg Hm). cbv zeta.
        destruct (WriteFile_err _ _); by repeat constructor.
      + rewrite (recordCallback_marshal_err _ _ _ _ _ _ _ _ Hg Hm). by repeat constructor.
    - rewrite (recordCallback_get_err _ _ _ _ _ _ Hg). by repeat constructor. }
  destruct (recordCallback r recordsPath k v fs) as [[[e|] fs1] t1]; [done|].
  specialize (IH fs1). destruct (walkLeaves rest werr _ fs1) as [[??]?]. simpl in *.
  by apply Forall_app_2.
Qed.

Lemma unpackRecords_no_blob_call (carPath recordsPath : string) (fs : FS) :
  Forall (λ e, blob_call e = false) (events (unpackRecords carPath recordsPath fs)).
Proof.
  unfold unpackRecords. rewrite bind_run. unfold Open at 1.
  destruct (read_node carPath fs) as [content|e]; [|by repeat constructor].
  destruct (ReadRepoFromCar content) as [r|e]; [|by repeat constructor].
  rewrite emit_run, bind_run, MkdirAll_run.
  destruct (MarshalCommit (SignedCommit r)) as [j|e]; [|by repeat constructor].
  rewrite bind_run. unfold WriteFile at 1.
  destruct (WriteFile_err _ _); [by repeat constructor|].
  pose proof (walkLeaves_no_blob_call r recordsPath (leaves r) (walk_err r)
                (<[Join recordsPath "_commit" +:+ ".json" := File j]>
                   (final (MkdirAll (Dir (Join recordsPath "_commit")) fs)))) as Hwalk.
  unfold ForEach. destruct (walkLeaves _ _ _ _) as [[??]?]. simpl in *.
  by repeat constructor.
Qed.

Lemma downloadRepo_no_blob_call (ident : Identity) (carPath : string) (fs : FS) :
  Forall (λ e, blob_call e = false) (events (downloadRepo ident carPath fs)).
Proof.
  rewrite downloadRepo_run. cbv zeta.
  destruct (decide (PDSEndpoint ident = "")); [constructor|].
  destruct (SyncGetRepo _ _ _); [|by repeat constructor].
  destruct (WriteFile_err fs carPath); by repeat constructor.
Qed.

(** X10. Blob download is opt-in: with [DownloadBlobs] off, [processRepo]
    makes no existence check, no listing call and no blob fetch, and it
    needs no fuel: it returns the same, after the same events, for every
    amount of fuel. *)
Theorem processRepo_without_blobs (fuel fuel' : nat) (did : string) (config : Config)
    (fs : FS) :
  DownloadBlobs config = false →
  Forall (λ e, blob_call e = false) (events (processRepo fuel did config fs))
  ∧ (∃ err, result (processRepo fuel did config fs) = Returned err)
  ∧ processRepo fuel did config fs = processRepo fuel' did config fs.
Proof.
  intros Hoff. rewrite !processRepo_run.
  destruct (ParseAtIdentifier did) as [atid|e]; [|by split_and!; [constructor|eexists|]].
  cbv zeta. destruct (Lookup atid) as [ident|e];
    [|by split_and!; [repeat constructor|eexists|]].
  pose proof (downloadRepo_no_blob_call ident
                (Join (CarsDir config) (DID ident +:+ ".car")) fs) as H1.
  destruct (downloadRepo ident _ fs) as [[[e|] fs1] t1]; simpl in H1.
  { split_and!; [by repeat constructor|by eexists|done]. }
  pose proof (unpackRecords_no_blob_call (Join (CarsDir config) (DID ident +:+ ".car"))
                (Join (RecordsDir config) (DID ident)) fs1) as H2.
  destruct (unpackRecords _ _ fs1) as [[[e|] fs2] t2]; simpl in H2; rewrite ?Hoff;
    (split_and!; [|by eexists|done]); simpl;
    repeat constructor; by apply Forall_app_2.
Qed.

(** *** What the blob synchronizer writes and asks for *)

Lemma blobPage_exports (host did topDir : string) (cids : list string) (fs : FS)
    (p : string) (b : bytes) :
  (p, b) ∈ exports (events (blobPage host did topDir cids fs)) →
  fs !! p = None
  ∧ final (blobPage host did topDir cids fs) !! p = Some (File b)
  ∧ ∃ c, c ∈ cids ∧ p = Join topDir c ∧ SyncGetBlob host c did = Ok b.
Proof.
  revert fs. induction cids as [|c0 rest IH]; intros fs; [by intros ?%elem_of_nil|].
  rewrite blobPage_cons. cbv zeta.
  destruct (fs !! Join topDir c0) as [n0|] eqn:Hp.
  - specialize (IH fs). destruct (blobPage host did topDir rest fs) as [[err fs2] t2].
    simpl in *. intros Hin. destruct (IH Hin) as (H1 & H2 & c & Hc & Hpc & Hget).
    split_and!; [done..|]. exists c. split_and!; [by apply list_elem_of_further|done..].
  - destruct (SyncGetBlob host c0 did) as [b0|e] eqn:Hget0; [|by intros ?%elem_of_nil].
    destruct (WriteFile_err fs _) as [e|] eqn:Hw; [by intros ?%elem_of_nil|].
    specialize (IH (<[Join topDir c0 := File b0]> fs)).
    pose proof (blobPage_subseteq host did topDir rest (<[Join topDir c0 := File b0]> fs))
      as Hsub.
    destruct (blobPage host did topDir rest _) as [[err fs2] t2]. simpl in *.
    intros [Heq|Hin]%elem_of_cons.
    + simplify_eq. split_and!; [done| |].
      * eapply lookup_weaken; [apply lookup_insert_eq|done].
      * exists c0. split_and!; [apply list_elem_of_here|done..].
    + destruct (IH Hin) as (H1 & H2 & c & Hc & Hpc & Hget).
      apply lookup_insert_None in H1 as [H1 _].
      split_and!; [done..|]. exists c. split_and!; [by apply list_elem_of_further|done..].
Qed.

Lemma blobLoop_exports (fuel : nat) (host did topDir cursor : string) (fs : FS)
    (p : string) (b : bytes) :
  (p, b) ∈ exports (events (blobLoop fuel host did topDir cursor fs)) →
  fs !! p = None
  ∧ final (blobLoop fuel host did topDir cursor fs) !! p = Some (File b)
  ∧ ∃ c, p = Join topDir c ∧ SyncGetBlob host c did = Ok b.
Proof.
  revert cursor fs. induction fuel as [|fuel IH]; intros cursor fs;
    [by intros ?%elem_of_nil|].
  rewrite blobLoop_S.
  destruct (SyncListBlobs host cursor did 500 "") as [resp|e]; [|by intros ?%elem_of_nil].
  pose proof (blobPage_exports host did topDir (Cids resp) fs p b) as Hpage.
  pose proof (blobPage_subseteq host did topDir (Cids resp) fs) as Hsub0.
  destruct (blobPage host did topDir (Cids resp) fs) as [[err fs1] t1].
  simpl in Hpage, Hsub0.
  assert ((p, b) ∈ exports t1 →
          fs !! p = None ∧ fs1 !! p = Some (File b)
          ∧ ∃ c, p = Join topDir c ∧ SyncGetBlob host c did = Ok b) as Hpage'.
  { intros Hin. destruct (Hpage Hin) as (H1 & H2 & c & _ & Hpc & Hget). eauto. }
  destruct err as [e|]; [done|].
  destruct (Cursor resp) as [c|]; [|done].
  destruct (decide (c = "")); [done|].
  specialize (IH c fs1).
  pose proof (blobLoop_subseteq fuel host did topDir c fs1) as Hsub.
  destruct (blobLoop fuel host did topDir c fs1) as [[o fs2] t2]. simpl in *.
  change (exports (CallSyncListBlobs host cursor did :: t1 ++ t2)) with (exports (t1 ++ t2)).
  rewrite exports_app. intros [Hin|Hin]%elem_of_app.
  - destruct (Hpage' Hin) as (H1 & H2 & Hc). split_and!; [done| |done].
    by eapply lookup_weaken.
  - destruct (IH Hin) as (H1 & H2 & Hc). split_and!; [|done..].
    by eapply lookup_weaken_None.
Qed.

(** X11. Every file that the blob synchronizer writes is new, is named by
    a listed content hash and holds the bytes fetched for that hash: for
    each unit [(p, b)] that [downloadBlobs] exports, nothing was at [p]
    before the run, [p] is the path of some hash [c] under the blob
    directory, the fetch of [c] returned [b], and [p] holds [b] when the run
    ends, however it ends. *)
Theorem downloaded_blobs_are_stored (fuel : nat) (ident : Identity) (recordsPath : string)
    (fs : FS) (p : string) (b : bytes) :
  (p, b) ∈ exports (events (downloadBlobs fuel ident recordsPath fs)) →
  fs !! p = None
  ∧ final (downloadBlobs fuel ident recordsPath fs) !! p = Some (File b)
  ∧ ∃ c, p = Join (Join recordsPath "_blob") c
      ∧ SyncGetBlob (PDSEndpoint ident) c (DID ident) = Ok b.
Proof.
  rewrite downloadBlobs_run. cbv zeta.
  destruct (decide (PDSEndpoint ident = "")); [by intros ?%elem_of_nil|].
  pose proof (blobLoop_exports fuel (PDSEndpoint ident) (DID ident)
                (Join recordsPath "_blob") "" (final (MkdirAll (Join recordsPath "_blob") fs))
                p b) as Hloop.
  pose proof (MkdirAll_subseteq (Join recordsPath "_blob") fs) as Hmk.
  destruct (blobLoop _ _ _ _ _ _) as [[o fs2] t2]. simpl in *.
  intros Hin. destruct (Hloop Hin) as (H1 & H2 & Hc).
  split_and!; [|done..]. by eapply lookup_weaken_None.
Qed.

Lemma blobLoop_listings_chain (fuel : nat) (host did topDir cursor : string) (fs : FS) :
  listings (events (blobLoop fuel host did topDir cursor fs))
  `prefix_of` cursor_chain fuel host did cursor
  ∧ ((∀ e, result (blobLoop fuel host did topDir cursor fs) ≠ Returned (Some e)) →
     listings (events (blobLoop fuel host did topDir cursor fs))
     = cursor_chain fuel host did cursor).
Proof.
  revert cursor fs. induction fuel as [|fuel IH]; intros cursor fs; [done|].
  rewrite blobLoop_S. simpl cursor_chain.
  destruct (SyncListBlobs host cursor did 500 "") as [resp|e]; [|done].
  pose proof (blobPage_listings host did topDir (Cids resp) fs) as Hpl.
  destruct (blobPage host did topDir (Cids resp) fs) as [[[e|] fs1] t1]; simpl in Hpl.
  { change (listings (events (Returned (Some e), fs1, CallSyncListBlobs host cursor did :: t1)))
      with (cursor :: listings t1). rewrite Hpl. split.
    - apply prefix_cons, prefix_nil.
    - intros Hne. by destruct (Hne e). }
  destruct (Cursor resp) as [c|].
  2: { change (listings (events (Returned None, fs1, CallSyncListBlobs host cursor did :: t1)))
         with (cursor :: listings t1). by rewrite Hpl. }
  destruct (decide (c = "")).
  { change (listings (events (Returned None, fs1, CallSyncListBlobs host cursor did :: t1)))
      with (cursor :: listings t1). by rewrite Hpl. }
  destruct (IH c fs1) as [IHp IHe].
  destruct (blobLoop fuel host did topDir c fs1) as [[o fs2] t2]. simpl in *.
  change (listings (CallSyncListBlobs host cursor did :: t1 ++ t2))
    with (cursor :: listings (t1 ++ t2)).
  rewrite listings_app, Hpl. simpl. split.
  - by apply prefix_cons.
  - intros Hne. by rewrite IHe.
Qed.

(** X12. The pages that the blob synchronizer asks for depend on the
    remote only, not on the local files: the cursors of its listing calls
    are, in order, the first ones of the chain of cursors that the remote
    hands out from the empty cursor on, and they are the whole chain unless
    the run stopped on an error. *)
Theorem blob_listings_follow_remote_chain (fuel : nat) (ident : Identity)
    (recordsPath : string) (fs : FS) :
  listings (events (downloadBlobs fuel ident recordsPath fs))
  `prefix_of` cursor_chain fuel (PDSEndpoint ident) (DID ident) EmptyString
  ∧ ((∀ e, result (downloadBlobs fuel ident recordsPath fs) ≠ Returned (Some e)) →
     listings (events (downloadBlobs fuel ident recordsPath fs))
     = cursor_chain fuel (PDSEndpoint ident) (DID ident) EmptyString).
Proof.
  rewrite downloadBlobs_run. cbv zeta.
  destruct (decide (PDSEndpoint ident = "")).
  { split; [apply prefix_nil|]. intros Hne. by destruct (Hne "no PDS endpoint for identity"). }
  pose proof (blobLoop_listings_chain fuel (PDSEndpoint ident) (DID ident)
                (Join recordsPath "_blob") ""
                (final (MkdirAll (Join recordsPath "_blob") fs))) as Hloop.
  by destruct (blobLoop _ _ _ _ _ _) as [[o fs2] t2].
Qed.

(** *** More on the identifier source *)

(** X13. [readDIDsFromFile] only reads: it succeeds exactly on a path that
    holds a regular file, leaves the file system as it is, never returns an
    empty identifier and never more identifiers than the file has lines;
    every identifier it returns is the trimmed form of a line of the file.
    On a missing path or a directory it returns [failed to read file:
    <cause>]. *)
Theorem readDIDsFromFile_entries (filename : string) (fs : FS) :
  final (readDIDsFromFile filename fs) = fs
  ∧ (∀ dids, result (readDIDsFromFile filename fs) = Ok dids →
       ∃ content, fs !! filename = Some (File content)
         ∧ Forall (λ d, d ≠ EmptyString
                        ∧ ∃ line, line ∈ Split_nl (string_of_list_byte content)
                                  ∧ d = TrimSpace line) dids
         ∧ length dids ≤ length (Split_nl (string_of_list_byte content)))
  ∧ (∀ e, read_node filename fs = Err e →
       result (readDIDsFromFile filename fs) = Err ("failed to read file: " +:+ e)).
Proof.
  split; [apply readDIDsFromFile_final|].
  unfold readDIDsFromFile. rewrite bind_run. unfold ReadFile.
  destruct (read_node filename fs) as [content|e0] eqn:Hread; simpl.
  - split; [|by intros e [=]]. intros dids [= <-]. exists content. split.
    { unfold read_node in Hread. destruct (fs !! filename) as [[c|]|]; by simplify_eq. }
    rewrite fold_appendDID. simpl. split.
    + apply Forall_forall. intros d [Hne Hin]%list_elem_of_filter.
      apply list_elem_of_fmap in Hin as (line & -> & Hline). eauto.
    + etrans; [apply length_filter|]. by rewrite length_fmap.
  - split; [by intros dids [=]|]. by intros e [= <-].
Qed.

Lemma split_on_nonempty (c : ascii) (s : string) : split_on c s ≠ [].
Proof.
  destruct s as [|a s]; simpl; [done|].
  destruct (decide (a = c)); [done|]. by destruct (split_on c s).
Qed.

Lemma split_on_lines (c : ascii) (s : string) :
  Forall (λ line, contains c line = false) (split_on c s)
  ∧ String.concat (String c EmptyString) (split_on c s) = s.
Proof.
  induction s as [|a s [IHc IHj]]; simpl.
  { split; [by repeat constructor|done]. }
  pose proof (split_on_nonempty c s) as Hs.
  destruct (decide (a = c)) as [->|Hne].
  - split; [by constructor|].
    destruct (split_on c s) as [|h t]; [done|].
    simpl in IHj |- *. by rewrite IHj.
  - destruct (split_on c s) as [|h t]; [done|].
    apply Forall_cons in IHc as [Hh Ht]. split.
    + constructor; [|done]. simpl. by rewrite decide_False.
    + simpl in IHj |- *. destruct t; simpl; by rewrite <- IHj.
Qed.

(** X14. Splitting the content at the line feeds loses nothing and leaves
    no line feed inside a line: there is always at least one line, no line
    contains a line feed, and the lines joined again with line feeds are the
    content. *)
Theorem Split_nl_lines (s : string) :
  Split_nl s ≠ []
  ∧ Forall (λ line, contains (ascii_of_nat 10) line = false) (Split_nl s)
  ∧ String.concat nl (Split_nl s) = s.
Proof.
  unfold Split_nl, nl. split; [apply split_on_nonempty|apply split_on_lines].
Qed.

(** *** [carUnpack] *)

Lemma carUnpackCallback_run (r : Repo SignedCommitT RecordT) (topDir k v : string) (fs : FS) :
  (result (carUnpackCallback r topDir k v fs) = None →
   ∃ u, carUnit r topDir (k, v) = Some u
        ∧ exports (events (carUnpackCallback r topDir k v fs)) = [u])
  ∧ (∀ e, result (carUnpackCallback r topDir k v fs) = Some e →
       exports (events (carUnpackCallback r topDir k v fs)) = [])
  ∧ (carUnit r topDir (k, v) = None →
     is_Some (result (carUnpackCallback r topDir k v fs))).
Proof.
  unfold carUnpackCallback, carUnit. simpl.
  destruct (GetRecord r k) as [[c rec]|e]; [|by split_and!; [|intros ? _|eexists]].
  rewrite emit_run, bind_run, MkdirAll_run.
  destruct (MarshalRecord rec) as [j|e]; [|by split_and!; [|intros ? _|eexists]].
  unfold WriteFile. destruct (WriteFile_err _ _); simpl.
  - by split_and!; [|intros ? _|].
  - split_and!; [intros _; by eexists|done|done].
Qed.

Lemma walkLeaves_carUnpack (r : Repo SignedCommitT RecordT) (topDir : string)
    (ls : list (string * string)) (werr : option error) (fs : FS) :
  (∃ n, exports (events (walkLeaves ls werr (carUnpackCallback r topDir) fs))
        = omap (carUnit r topDir) (take n ls)
        ∧ Forall (λ kv, is_Some (carUnit r topDir kv)) (take n ls))
  ∧ (result (walkLeaves ls werr (carUnpackCallback r topDir) fs) = None →
     werr = None
     ∧ Forall (λ kv, is_Some (carUnit r topDir kv)) ls
     ∧ exports (events (walkLeaves ls werr (carUnpackCallback r topDir) fs))
       = omap (carUnit r topDir) ls).
Proof.
  revert fs. induction ls as [|[k v] rest IH]; intros fs.
  { split; [by exists 0|]. simpl. by intros ->. }
  simpl walkLeaves. rewrite bind_run.
  destruct (carUnpackCallback_run r topDir k v fs) as (Hok & Herr & _).
  destruct (carUnpackCallback r topDir k v fs) as [[[e|] fs1] t1]; simpl in *.
  - split; [|done]. exists 0. rewrite app_nil_r. split; [by apply (Herr e)|constructor].
  - destruct (Hok eq_refl) as (u & Hu & Hexp).
    destruct (IH fs1) as [(n & Hn & Hall) Hnil].
    destruct (walkLeaves rest werr _ fs1) as [[err fs2] t2].
    cbn [result final events fst snd] in *. split.
    + exists (S n). rewrite exports_app, Hexp, Hn. simpl take.
      rewrite (omap_cons_Some _ _ _ _ Hu). split; [done|].
      constructor; [by rewrite Hu|done].
    + intros ->. destruct (Hnil eq_refl) as (Hw & Hall' & Hexp').
      split_and!; [done|constructor; [by rewrite Hu|done]|].
      by rewrite exports_app, Hexp, Hexp', Hu.
Qed.

(** X16. [carUnpack] does not skip: it exports the commit and then the
    records of an initial stretch of the walk, and stops at the first
    record that does not resolve or serialize; it returns nil only when the
    walk ended without error and every record of the repository was
    exported (under the directory named by the DID of the commit). *)
Theorem carUnpack_exports_all_or_fails (carPath : string) (fs : FS) :
  (exports (events (carUnpack carPath fs)) = []
   ∨ ∃ content r did commitJson n,
       read_node carPath fs = Ok content
       ∧ ReadRepoFromCar content = Ok r
       ∧ ParseDID (CommitDid (SignedCommit r)) = Ok did
       ∧ MarshalCommit (SignedCommit r) = Ok commitJson
       ∧ Forall (λ kv, is_Some (carUnit r did kv)) (take n (leaves r))
       ∧ exports (events (carUnpack carPath fs))
         = ((did +:+ "/_commit") +:+ ".json", commitJson)
           :: omap (carUnit r did) (take n (leaves r)))
  ∧ (result (carUnpack carPath fs) = None →
     ∃ content r did commitJson,
       read_node carPath fs = Ok content
       ∧ ReadRepoFromCar content = Ok r
       ∧ ParseDID (CommitDid (SignedCommit r)) = Ok did
       ∧ MarshalCommit (SignedCommit r) = Ok commitJson
       ∧ walk_err r = None
       ∧ Forall (λ kv, is_Some (carUnit r did kv)) (leaves r)
       ∧ exports (events (carUnpack carPath fs))
         = ((did +:+ "/_commit") +:+ ".json", commitJson)
           :: omap (carUnit r did) (leaves r)).
Proof.
  destruct (carUnpack carPath fs) as [[res fs'] t] eqn:Hrun. simpl.
  unfold carUnpack in Hrun. rewrite bind_run in Hrun. unfold Open in Hrun.
  destruct (read_node carPath fs) as [content|e];
    [|simpl in Hrun; simplify_eq; split; [by left|by intros [=]]].
  destruct (ReadRepoFromCar content) as [r|e] eqn:Hread;
    [|simpl in Hrun; simplify_eq; split; [by left|by intros [=]]].
  destruct (ParseDID (CommitDid (SignedCommit r))) as [did|e] eqn:Hdid;
    [|simpl in Hrun; simplify_eq; split; [by left|by intros [=]]].
  rewrite emit_run, bind_run, MkdirAll_run in Hrun.
  destruct (MarshalCommit (SignedCommit r)) as [j|e] eqn:Hm;
    [|simpl in Hrun; simplify_eq; split; [by left|by intros [=]]].
  rewrite bind_run in Hrun. unfold WriteFile in Hrun.
  destruct (WriteFile_err _ _); [simpl in Hrun; simplify_eq; split; [by left|by intros [=]]|].
  unfold ForEach in Hrun.
  destruct (walkLeaves_carUnpack r did (leaves r) (walk_err r)
              (<[(did +:+ "/_commit") +:+ ".json" := File j]>
                 (final (MkdirAll (Dir (did +:+ "/_commit")) fs))))
    as [(n & Hn & Hall) Hnil].
  destruct (walkLeaves _ _ _ _) as [[err fs2] t2]. simpl in *. simplify_eq. split.
  - right. exists content, r, did, j, n. split_and!; [done..|]. simpl. by rewrite Hn.
  - intros ->. destruct (Hnil eq_refl) as (Hw & Hall' & Hexp).
    exists content, r, did, j. split_and!; [done..|]. simpl. by rewrite Hexp.
Qed.

(** *** [blobDownloadAll], step by step *)

Lemma blobPageAll_cons (host did topDir cidStr : string) (rest : list string) (fs : FS) :
  blobPageAll host did topDir (cidStr :: rest) fs
  = let p := topDir +:+ "/" +:+ cidStr in
    match fs !! p with
    | Some _ =>
        let '(err, fs2, t2) := blobPageAll host did topDir rest fs in
        (err, fs2, CallStat p true :: Stdout (p +:+ tab +:+ "exists" +:+ nl) :: t2)
    | None =>
        match SyncGetBlob host cidStr did with
        | Err e => (Some e, fs, [CallStat p false; CallSyncGetBlob host cidStr did])
        | Ok blobBytes =>
            match WriteFile_err fs p with
            | Some e =>
                (Some e, fs,
                 [CallStat p false; CallSyncGetBlob host cidStr did;
                  CallWriteFile p blobBytes (Some e)])
            | None =>
                let '(err, fs2, t2) :=
                  blobPageAll host did topDir rest (<[p := File blobBytes]> fs) in
                (err, fs2,
                 CallStat p false :: CallSyncGetBlob host cidStr did
                 :: CallWriteFile p blobBytes None
                 :: Stdout (p +:+ tab +:+ "downloaded" +:+ nl) :: t2)
            end
        end
    end.
Proof.
  cbv zeta. simpl. rewrite bind_run. unfold Stat at 1.
  destruct (fs !! (topDir +:+ "/" +:+ cidStr)) as [n|] eqn:Hp.
  - rewrite bool_decide_eq_true_2 by by eexists.
    rewrite emit_run. by destruct (blobPageAll host did topDir rest fs) as [[??]?].
  - rewrite bool_decide_eq_false_2 by (by intros [??]).
    rewrite emit_run. destruct (SyncGetBlob host cidStr did) as [b|e]; [|done].
    rewrite bind_run. unfold WriteFile at 1.
    destruct (WriteFile_err fs _) as [e|]; [done|].
    rewrite emit_run. by destruct (blobPageAll host did topDir rest _) as [[??]?].
Qed.

Lemma blobLoopAll_S (fuel : nat) (host did topDir cursor : string) (fs : FS) :
  blobLoopAll (S fuel) host did topDir cursor fs
  = match SyncListBlobs host cursor did 500 EmptyString with
    | Err e => (Returned (Some e), fs, [CallSyncListBlobs host cursor did])
    | Ok resp =>
        let '(err, fs1, t1) := blobPageAll host did topDir (Cids resp) fs in
        match err with
        | Some e => (Returned (Some e), fs1, CallSyncListBlobs host cursor did :: t1)
        | None =>
            match Cursor resp with
            | Some c =>
                if decide (c = EmptyString)
                then (Returned None, fs1, CallSyncListBlobs host cursor did :: t1)
                else
                  let '(o, fs2, t2) := blobLoopAll fuel host did topDir c fs1 in
                  (o, fs2, CallSyncListBlobs host cursor did :: t1 ++ t2)
            | None => (Returned None, fs1, CallSyncListBlobs host cursor did :: t1)
            end
        end
    end.
Proof.
  simpl. rewrite emit_run.
  destruct (SyncListBlobs host cursor did 500 "") as [resp|e]; [|done].
  rewrite bind_run.
  destruct (blobPageAll host did topDir (Cids resp) fs) as [[[e|] fs1] t1]; simpl.
  - by rewrite app_nil_r.
  - destruct (Cursor resp) as [c|]; simpl; [|by rewrite app_nil_r].
    destruct (decide (c = "")); simpl; [by rewrite app_nil_r|].
    by destruct (blobLoopAll fuel host did topDir c fs1) as [[??]?].
Qed.

Lemma blobDownloadAll_run (fuel : nat) (raw : string) (fs : FS) :
  blobDownloadAll fuel raw fs
  = match ParseAtIdentifier raw with
    | Err e => (Returned (Some e), fs, [])
    | Ok atid =>
        match Lookup atid with
        | Err e => (Returned (Some e), fs, [CallLookup atid])
        | Ok ident =>
            if decide (PDSEndpoint ident = EmptyString)
            then (Returned (Some "no PDS endpoint for identity"), fs, [CallLookup atid])
            else
              let topDir := DID ident +:+ "/_blob" in
              let '(o, fs2, t2) :=
                blobLoopAll fuel (PDSEndpoint ident) (DID ident) topDir EmptyString
                  (final (MkdirAll topDir fs)) in
              (o, fs2,
               CallLookup atid :: Stdout ("writing blobs to: " +:+ topDir +:+ nl)
               :: CallMkdirAll topDir :: t2)
        end
    end.
Proof.
  unfold blobDownloadAll. destruct (ParseAtIdentifier raw) as [atid|e]; [|done].
  rewrite emit_run. destruct (Lookup atid) as [ident|e]; [|done].
  cbv zeta. destruct (decide (PDSEndpoint ident = "")); [done|].
  rewrite emit_run, bind_run, MkdirAll_run.
  by destruct (blobLoopAll _ _ _ _ _ _) as [[??]?].
Qed.

(** *** The archive comes first, and the identifiers in file order *)

Lemma omap_all_None {A B} (f : A → option B) (l : list A) :
  Forall (λ a, f a = None) l → omap f l = [].
Proof.
  induction 1 as [|a l Ha _ IH]; [done|]. simpl. by rewrite Ha.
Qed.

Lemma walkLeaves_no_lookup (r : Repo SignedCommitT RecordT) (recordsPath : string)
    (ls : list (string * string)) (werr : option error) (fs : FS) :
  Forall (λ e, lookup_call e = None)
    (events (walkLeaves ls werr (recordCallback r recordsPath) fs)).
Proof.
  revert fs. induction ls as [|[k v] rest IH]; intros fs; [constructor|].
  rewrite walkLeaves_cons.
  assert (Forall (λ e, lookup_call e = None) (events (recordCallback r recordsPath k v fs)))
    as Hcb.
  { destruct (GetRecord r k) as [[c rec]|e] eqn:Hg.
    - destruct (MarshalRecord rec) as [j|e] eqn:Hm.
      + rewrite (recordCallback_write _ _ _ _ _ _ _ _ Hg Hm). cbv zeta.
        destruct (WriteFile_err _ _); by repeat constructor.
      + rewrite (recordCallback_marshal_err _ _ _ _ _ _ _ _ Hg Hm). by repeat constructor.
    - rewrite (recordCallback_get_err _ _ _ _ _ _ Hg). by repeat constructor. }
  destruct (recordCallback r recordsPath k v fs) as [[[e|] fs1] t1]; [done|].
  specialize (IH fs1). destruct (walkLeaves rest werr _ fs1) as [[??]?]. simpl in *.
  by apply Forall_app_2.
Qed.

Lemma unpackRecords_no_lookup (carPath recordsPath : string) (fs : FS) :
  Forall (λ e, lookup_call e = None) (events (unpackRecords carPath recordsPath fs)).
Proof.
  unfold unpackRecords. rewrite bind_run. unfold Open at 1.
  destruct (read_node carPath fs) as [content|e]; [|by repeat constructor].
  destruct (ReadRepoFromCar content) as [r|e]; [|by repeat constructor].
  rewrite emit_run, bind_run, MkdirAll_run.
  destruct (MarshalCommit (SignedCommit r)) as [j|e]; [|by repeat constructor].
  rewrite bind_run. unfold WriteFile at 1.
  destruct (WriteFile_err _ _); [by repeat constructor|].
  pose proof (walkLeaves_no_lookup r recordsPath (leaves r) (walk_err r)
                (<[Join recordsPath "_commit" +:+ ".json" := File j]>
                   (final (MkdirAll (Dir (Join recordsPath "_commit")) fs)))) as Hwalk.
  unfold ForEach. destruct (walkLeaves _ _ _ _) as [[??]?]. simpl in *.
  by repeat constructor.
Qed.

Lemma downloadRepo_no_lookup (ident : Identity) (carPath : string) (fs : FS) :
  Forall (λ e, lookup_call e = None) (events (downloadRepo ident carPath fs)).
Proof.
  rewrite downloadRepo_run. cbv zeta.
  destruct (decide (PDSEndpoint ident = "")); [constructor|].
  destruct (SyncGetRepo _ _ _); [|by repeat constructor].
  destruct (WriteFile_err fs carPath); by repeat constructor.
Qed.

Lemma blobPage_no_lookup (host did topDir : string) (cids : list string) (fs : FS) :
  Forall (λ e, lookup_call e = None) (events (blobPage host did topDir cids fs)).
Proof.
  revert fs. induction cids as [|c rest IH]; intros fs; [constructor|].
  rewrite blobPage_cons. cbv zeta.
  destruct (fs !! Join topDir c).
  - specialize (IH fs). destruct (blobPage host did topDir rest fs) as [[??]?].
    simpl in *. by repeat constructor.
  - destruct (SyncGetBlob host c did) as [b|e]; [|by repeat constructor].
    destruct (WriteFile_err fs _); [by repeat constructor|].
    specialize (IH (<[Join topDir c := File b]> fs)).
    destruct (blobPage host did topDir rest _) as [[??]?]. simpl in *.
    by repeat constructor.
Qed.

Lemma blobLoop_no_lookup (fuel : nat) (host did topDir cursor : string) (fs : FS) :
  Forall (λ e, lookup_call e = None) (events (blobLoop fuel host did topDir cursor fs)).
Proof.
  revert cursor fs. induction fuel as [|fuel IH]; intros cursor fs; [constructor|].
  rewrite blobLoop_S.
  destruct (SyncListBlobs host cursor did 500 "") as [resp|e]; [|by repeat constructor].
  pose proof (blobPage_no_lookup host did topDir (Cids resp) fs) as Hpage.
  destruct (blobPage host did topDir (Cids resp) fs) as [[[e|] fs1] t1]; simpl in *;
    [by constructor|].
  destruct (Cursor resp) as [c|]; [|by constructor].
  destruct (decide (c = "")); [by constructor|].
  specialize (IH c fs1). destruct (blobLoop fuel host did topDir c fs1) as [[??]?].
  simpl in *. constructor; [done|]. by apply Forall_app_2.
Qed.

Lemma downloadBlobs_no_lookup (fuel : nat) (ident : Identity) (recordsPath : string)
    (fs : FS) :
  Forall (λ e, lookup_call e = None) (events (downloadBlobs fuel ident recordsPath fs)).
Proof.
  rewrite downloadBlobs_run. cbv zeta.
  destruct (decide (PDSEndpoint ident = "")); [by repeat constructor|].
  pose proof (blobLoop_no_lookup fuel (PDSEndpoint ident) (DID ident)
                (Join recordsPath "_blob") ""
                (final (MkdirAll (Join recordsPath "_blob") fs))) as Hloop.
  destruct (blobLoop _ _ _ _ _ _) as [[??]?]. simpl in *. by repeat constructor.
Qed.

Lemma processRepo_lookups (fuel : nat) (did : string) (config : Config) (fs : FS) :
  omap lookup_call (events (processRepo fuel did config fs)) = option_list (parsed did).
Proof.
  rewrite processRepo_run. unfold parsed.
  destruct (ParseAtIdentifier did) as [atid|e]; [|done]. cbv zeta.
  destruct (Lookup atid) as [ident|e]; [|done].
  pose proof (omap_all_None _ _
                (downloadRepo_no_lookup ident
                   (Join (CarsDir config) (DID ident +:+ ".car")) fs)) as H1.
  destruct (downloadRepo ident _ fs) as [[[e|] fs1] t1]; cbn [events snd] in H1 |- *.
  { by rewrite omap_app, H1. }
  pose proof (omap_all_None _ _
                (unpackRecords_no_lookup (Join (CarsDir config) (DID ident +:+ ".car"))
                   (Join (RecordsDir config) (DID ident)) fs1)) as H2.
  destruct (unpackRecords _ _ fs1) as [[[e|] fs2] t2]; cbn [events snd] in H2 |- *.
  { by rewrite !omap_app, H1, H2. }
  destruct (DownloadBlobs config).
  - pose proof (omap_all_None _ _
                  (downloadBlobs_no_lookup fuel ident
                     (Join (RecordsDir config) (DID ident)) fs2)) as H3.
    destruct (downloadBlobs fuel ident _ fs2) as [[o fs3] t3]. cbn [events snd] in H3 |- *.
    by rewrite !omap_app, H1, H2, H3.
  - cbn [events snd]. by rewrite !omap_app, H1, H2.
Qed.

(** X18. The identifiers are resolved in file order, one lookup per line
    that parses, a repeated line again: the identifiers handed to [Lookup]
    by the loop of [run] are an initial stretch of the parsed lines, in
    order, and all of them when the loop returns. *)
Theorem run_resolves_in_file_order (fuel : nat) (dids : list string) (config : Config)
    (fs : FS) :
  omap lookup_call (events (runLoop fuel dids config fs)) `prefix_of` omap parsed dids
  ∧ (∀ err, result (runLoop fuel dids config fs) = Returned err →
       omap lookup_call (events (runLoop fuel dids config fs)) = omap parsed dids).
Proof.
  revert fs. induction dids as [|did rest IH]; intros fs; [done|].
  assert (omap parsed (did :: rest) = option_list (parsed did) ++ omap parsed rest) as ->.
  { simpl. by destruct (parsed did). }
  destruct (result (processRepo fuel did config fs)) as [err|] eqn:Hres.
  - rewrite (runLoop_cons _ _ _ _ _ _ Hres). cbn [result final events fst snd].
    rewrite !omap_app, processRepo_lookups.
    assert (omap lookup_call (report did (Returned err)) = []) as ->
      by by destruct err.
    destruct (IH (final (processRepo fuel did config fs))) as [Hpre Hall].
    split.
    + by apply prefix_app.
    + intros err' Hret. by rewrite (Hall err' Hret).
  - pose proof (processRepo_lookups fuel did config fs) as Hl.
    change (runLoop fuel (did :: rest) config fs)
      with ((processRepo fuel did config ≫= λ o,
               match o with
               | OutOfFuel => mret OutOfFuel
               | Returned (Some e) =>
                   emit (Stderr ("error processing " +:+ did +:+ ": " +:+ e +:+ nl));;
                   runLoop fuel rest config
               | Returned None => runLoop fuel rest config
               end) fs).
    rewrite bind_run.
    destruct (processRepo fuel did config fs) as [[o fs1] t1]. simpl in Hres, Hl. subst o.
    simpl. rewrite app_nil_r, Hl. split; [by apply prefix_app_r|done].
Qed.

(** X19. Nothing is written for an identifier before its archive is
    stored: when [processRepo] exports anything at all, the identifier was
    resolved, the repository was fetched, and the first unit exported is the
    CAR file [<CarsDir>/<did>.car] holding the fetched bytes. *)
Theorem processRepo_archive_first (fuel : nat) (did : string) (config : Config) (fs : FS) :
  exports (events (processRepo fuel did config fs)) = []
  ∨ ∃ atid ident repoBytes rest,
      ParseAtIdentifier did = Ok atid
      ∧ Lookup atid = Ok ident
      ∧ SyncGetRepo (PDSEndpoint ident) (DID ident) EmptyString = Ok repoBytes
      ∧ exports (events (processRepo fuel did config fs))
        = (Join (CarsDir config) (DID ident +:+ ".car"), repoBytes) :: rest.
Proof.
  rewrite processRepo_run.
  destruct (ParseAtIdentifier did) as [atid|e] eqn:HP; [|by left]. cbv zeta.
  destruct (Lookup atid) as [ident|e] eqn:HL; [|by left].
  rewrite downloadRepo_run. cbv zeta.
  destruct (decide (PDSEndpoint ident = "")); [by left|].
  destruct (SyncGetRepo _ _ _) as [repoBytes|e] eqn:HG; [|by left].
  destruct (WriteFile_err fs _); [by left|].
  right. exists atid, ident, repoBytes.
  destruct (unpackRecords _ _ _) as [[[e|] fs2] t2].
  { eexists. by split_and!. }
  destruct (DownloadBlobs config).
  - destruct (downloadBlobs fuel ident _ fs2) as [[o fs3] t3]. eexists. by split_and!.
  - eexists. by split_and!.
Qed.

End Program.


(** ** Instances of the collaborators *)

(** *** ASCII white space *)








(** *** [blobDownloadAll] and [downloadBlobs] *)

Section BlobDownloadAll.
Variable ParseAtIdentifier : string → res string.
Variable Lookup : string → res Identity.
Variable SyncListBlobs : string → string → string → Z → string → res ListBlobsOutput.
Variable SyncGetBlob : string → string → string → res bytes.
Variable WriteFile_err : FS → string → option error.
Variable MkdirAll_err : FS → string → option error.

Lemma blobPageAll_blobPage (host did topDir : string) (cids : list string) (fs : FS) :
  blobPageAll SyncGetBlob WriteFile_err host did topDir cids fs
  = blobPage slashJoin SyncGetBlob WriteFile_err host did topDir cids fs.
Proof.
  revert fs. induction cids as [|c rest IH]; intros fs; [done|].
  rewrite blobPageAll_cons, blobPage_cons. cbv zeta. unfold slashJoin at 1 2 3 4 5 6 7.
  destruct (fs !! (topDir +:+ "/" +:+ c)); [by rewrite IH|].
  destruct (SyncGetBlob host c did) as [b|e]; [|done].
  destruct (WriteFile_err fs _); [done|]. by rewrite IH.
Qed.

Lemma blobLoopAll_blobLoop (fuel : nat) (host did topDir cursor : string) (fs : FS) :
  blobLoopAll SyncListBlobs SyncGetBlob WriteFile_err fuel host did topDir cursor fs
  = blobLoop slashJoin SyncListBlobs SyncGetBlob WriteFile_err fuel host did topDir cursor fs.
Proof.
  revert cursor fs. induction fuel as [|fuel IH]; intros cursor fs; [done|].
  rewrite blobLoopAll_S, blobLoop_S.
  destruct (SyncListBlobs host cursor did 500 "") as [resp|e]; [|done].
  rewrite blobPageAll_blobPage.
  destruct (blobPage slashJoin SyncGetBlob WriteFile_err host did topDir (Cids resp) fs)
    as [[[e|] fs1] t1]; [done|].
  destruct (Cursor resp) as [c|]; [|done].
  destruct (decide (c = "")); [done|]. by rewrite IH.
Qed.

(** X17. [blobDownloadAll] is the blob synchronizer of [downloadBlobs]
    started from a raw identifier: once the identifier resolves to an
    identity with a PDS endpoint it runs the same pagination, with the blob
    directory [<did>/_blob] and paths made by concatenation, so that it too
    fetches a content hash at most once in a run and leaves every existing
    node as it is; for an identifier that does not parse or resolve, or an
    identity without endpoint, it returns the error without a listing call
    and without touching the file system. *)
Theorem blobDownloadAll_is_blob_sync (fuel : nat) (raw : string) (fs : FS) :
  NoDup (fetches (events (blobDownloadAll ParseAtIdentifier Lookup SyncListBlobs
                            SyncGetBlob WriteFile_err MkdirAll_err fuel raw fs)))
  ∧ fs ⊆ final (blobDownloadAll ParseAtIdentifier Lookup SyncListBlobs
                  SyncGetBlob WriteFile_err MkdirAll_err fuel raw fs)
  ∧ (∀ atid ident,
       ParseAtIdentifier raw = Ok atid →
       Lookup atid = Ok ident →
       PDSEndpoint ident ≠ EmptyString →
       let topDir := DID ident +:+ "/_blob" in
       let loop :=
         blobLoop slashJoin SyncListBlobs SyncGetBlob WriteFile_err fuel
           (PDSEndpoint ident) (DID ident) topDir EmptyString
           (final (MkdirAll MkdirAll_err topDir fs)) in
       blobDownloadAll ParseAtIdentifier Lookup SyncListBlobs SyncGetBlob
         WriteFile_err MkdirAll_err fuel raw fs
       = (result loop, final loop,
          CallLookup atid :: Stdout ("writing blobs to: " +:+ topDir +:+ nl)
          :: CallMkdirAll topDir :: events loop))
  ∧ ((∀ atid ident, ParseAtIdentifier raw = Ok atid → Lookup atid = Ok ident →
        PDSEndpoint ident = EmptyString) →
     final (blobDownloadAll ParseAtIdentifier Lookup SyncListBlobs SyncGetBlob
              WriteFile_err MkdirAll_err fuel raw fs) = fs
     ∧ listings (events (blobDownloadAll ParseAtIdentifier Lookup SyncListBlobs
                           SyncGetBlob WriteFile_err MkdirAll_err fuel raw fs)) = []
     ∧ ∃ e, result (blobDownloadAll ParseAtIdentifier Lookup SyncListBlobs SyncGetBlob
                      WriteFile_err MkdirAll_err fuel raw fs) = Returned (Some e)).
Proof.
  rewrite blobDownloadAll_run.
  destruct (ParseAtIdentifier raw) as [atid|e] eqn:HP.
  2: { split_and!; [apply NoDup_nil_2|done|by intros ?? [=]|].
       intros _. by split_and!; [| |eexists]. }
  destruct (Lookup atid) as [ident|e] eqn:HL.
  2: { split_and!; [apply NoDup_nil_2|done| |].
       - intros atid' ident' [= <-] HL'. by rewrite HL' in HL.
       - intros _. by split_and!; [| |eexists]. }
  destruct (decide (PDSEndpoint ident = "")) as [Hhost|Hhost].
  { split_and!; [apply NoDup_nil_2|done| |].
    - intros atid' ident' [= <-] HL' Hne. rewrite HL' in HL. by simplify_eq.
    - intros _. by split_and!; [| |eexists]. }
  cbv zeta. rewrite blobLoopAll_blobLoop.
  set (topDir := DID ident +:+ "/_blob").
  destruct (blobLoop_fetches slashJoin SyncListBlobs SyncGetBlob WriteFile_err
              (PDSEndpoint ident) (DID ident) topDir fuel ""
              (final (MkdirAll MkdirAll_err topDir fs))) as (Hnd & _ & _).
  pose proof (blobLoop_subseteq slashJoin SyncListBlobs SyncGetBlob WriteFile_err fuel
                (PDSEndpoint ident) (DID ident) topDir ""
                (final (MkdirAll MkdirAll_err topDir fs))) as Hsub.
  pose proof (MkdirAll_subseteq MkdirAll_err topDir fs) as Hmk.
  destruct (blobLoop _ _ _ _ _ _ _ _ _ _) as [[o fs2] t2] eqn:Hloop. simpl in *.
  split_and!; [done|by etrans| |].
  - intros atid' ident' [= <-] HL' _. rewrite HL' in HL.
    injection HL as ->. fold topDir. by rewrite Hloop.
  - intros Hnone. by destruct Hhost; eapply Hnone.
Qed.

End BlobDownloadAll.

(** ** The program on the concrete environment *)

Import Fixture.

Local Abbreviation unpackRecordsF wferr :=
  (unpackRecords string string pathJoin pathDir marshalCommit marshalRecord
     wferr accept readRepoFromCar).

Local Abbreviation processRepoF getBlob wferr :=
  (processRepo string string pathJoin pathDir parseAtIdentifier lookup syncGetRepo
     syncListBlobs getBlob marshalCommit marshalRecord wferr accept readRepoFromCar).

Local Abbreviation runLoopF getBlob wferr :=
  (runLoop string string pathJoin pathDir parseAtIdentifier lookup syncGetRepo
     syncListBlobs getBlob marshalCommit marshalRecord wferr accept readRepoFromCar).

Local Abbreviation downloadBlobsF getBlob wferr :=
  (downloadBlobs pathJoin syncListBlobs getBlob wferr accept).

Local Abbreviation downloadRepoF wferr := (downloadRepo syncGetRepo wferr).


(** The identifier file of the fixture: the indented line is returned
    trimmed, the blank line is dropped, the repeated identifier is kept. *)
Lemma readDIDsFromFile_trimmed_lines_witness :
  disk !! "dids.txt" = Some (File (text didsText))
  ∧ result (readDIDsFromFile trim_ascii "dids.txt" disk)
    = Ok ["did:plc:alice"; "did:plc:bob"; "did:plc:alice"].
Proof.
  split; [reflexivity|].
  exact (readDIDsFromFile_trimmed_lines trim_ascii "dids.txt" disk (text didsText) eq_refl).
Defined.

(** C8 as stated fails on the identifier file of the fixture: its second
    non-blank line is [  did:plc:bob ], with white space on both sides, and
    the returned list holds [did:plc:bob] instead. *)
Lemma readDIDsFromFile_returns_lines_counterexample :
  spec_nonblank_lines trim_ascii didsText
  = ["did:plc:alice"; "  did:plc:bob "; "did:plc:alice"]
  ∧ result (readDIDsFromFile trim_ascii "dids.txt" disk)
    = Ok ["did:plc:alice"; "did:plc:bob"; "did:plc:alice"]
  ∧ result (readDIDsFromFile trim_ascii "dids.txt" disk)
    ≠ Ok (spec_nonblank_lines trim_ascii didsText).
Proof.
  split_and!; [reflexivity..|]. vm_compute. discriminate.
Qed.


(** A listing of two pages in which the first hash of the first page is
    listed again on the second page: it is fetched once; the second run
    fetches nothing. *)
Lemma blob_sync_fetches_once_witness :
  let first := downloadBlobsF syncGetBlob accept 3 alice "records/did:plc:alice" ∅ in
  let second :=
    downloadBlobsF syncGetBlob accept 3 alice "records/did:plc:alice" (final first) in
  result first = Returned None
  ∧ fetches (events first) = ["bafyblob1"; "bafyblob2"; "bafyblob3"]
  ∧ NoDup (fetches (events first))
  ∧ result second = Returned None
  ∧ fetches (events second) = [].
Proof.
  destruct (blob_sync_fetches_once pathJoin syncListBlobs syncGetBlob accept accept
              3 alice "records/did:plc:alice" ∅) as (Hnd & _ & Hrerun).
  destruct (Hrerun eq_refl) as [Hres Hfetch].
  split_and!; [reflexivity|reflexivity|exact Hnd|exact Hres|exact Hfetch].
Defined.

(** C4 as stated fails when the first run did not finish: the remote
    lists a blob that it does not serve, the first run fetches it and
    returns the error, and the second run, against the same remote state,
    fetches it again. *)
Lemma rerun_after_failed_fetch_counterexample :
  let first := downloadBlobsF syncGetBlob_gone accept 3 alice "records/did:plc:alice" ∅ in
  let second :=
    downloadBlobsF syncGetBlob_gone accept 3 alice "records/did:plc:alice" (final first) in
  result first = Returned (Some "blob not found")
  ∧ fetches (events first) = ["bafyblob1"]
  ∧ result second = Returned (Some "blob not found")
  ∧ fetches (events second) = ["bafyblob1"].
Proof. split_and!; reflexivity. Qed.

(** The pipeline of an identifier whose first listed blob cannot be
    fetched: the failed fetch is the last event, its error is returned, and
    the exported commit and records are still on the file system. *)
Lemma failed_blob_fetch_aborts_blob_sync_witness :
  let run := processRepoF syncGetBlob_gone accept 3 "did:plc:alice" (config true) ∅ in
  result run = Returned (Some "blob not found")
  ∧ last (events run)
    = Some (CallSyncGetBlob "https://pds.example" "bafyblob1" "did:plc:alice")
  ∧ final run !! "records/did:plc:alice/_commit.json" = Some (File (text "signed commit"))
  ∧ final run !! "records/did:plc:alice/app.bsky.graph.follow/3c.json"
    = Some (File (text "record app.bsky.graph.follow/3c")).
Proof.
  set (dl := downloadRepoF accept alice "cars/did:plc:alice.car" ∅).
  set (up := unpackRecordsF accept "cars/did:plc:alice.car" "records/did:plc:alice"
               (final dl)).
  destruct (failed_blob_fetch_aborts_blob_sync string string pathJoin pathDir
              parseAtIdentifier lookup syncGetRepo syncListBlobs syncGetBlob_gone
              marshalCommit marshalRecord accept accept readRepoFromCar
              3 "did:plc:alice" (config true) ∅ "did:plc:alice" alice
              (final dl) (final up) (events dl) (events up)
              eq_refl eq_refl eq_refl eq_refl eq_refl)
    as (Hrun & Hfatal & Hsub).
  cbv zeta in Hrun, Hfatal, Hsub. cbv zeta. rewrite Hrun.
  set (blobs := downloadBlobs _ _ _ _ _ _ _ _ _) in *.
  assert (events blobs
          = removelast (events blobs)
            ++ CallSyncGetBlob "https://pds.example" "bafyblob1" "did:plc:alice" :: [])
    as Hcut by reflexivity.
  destruct (Hfatal _ _ _ _ _ "blob not found" Hcut eq_refl) as [_ Hres].
  split_and!.
  - exact Hres.
  - reflexivity.
  - apply (lookup_weaken (final up)); [reflexivity|exact Hsub].
  - apply (lookup_weaken (final up)); [reflexivity|exact Hsub].
Defined.


(** The listing of the fixture: the first page comes with the cursor
    [page2], and the loop makes its next listing call with it; the second
    page comes without a cursor, and the loop returns nil. *)
Lemma pagination_follows_cursor_witness :
  let host := "https://pds.example" in
  let did := "did:plc:alice" in
  let topDir := "records/did:plc:alice/_blob" in
  let page := blobPage pathJoin syncGetBlob accept host did topDir
                ["bafyblob1"; "bafyblob2"] ∅ in
  let next := blobLoop pathJoin syncListBlobs syncGetBlob accept 2 host did topDir
                "page2" (final page) in
  head (events next) = Some (CallSyncListBlobs host "page2" did)
  ∧ listings (events next) = ["page2"]
  ∧ result next = Returned None
  ∧ listings (events (blobLoop pathJoin syncListBlobs syncGetBlob accept 3 host did topDir
                        EmptyString ∅))
    = [EmptyString; "page2"].
Proof.
  destruct (pagination_follows_cursor pathJoin syncListBlobs syncGetBlob accept
              "https://pds.example" "did:plc:alice" "records/did:plc:alice/_blob")
    as (Hstep & _ & _ & _ & _).
  assert (result (blobPage pathJoin syncGetBlob accept "https://pds.example"
                    "did:plc:alice" "records/did:plc:alice/_blob"
                    ["bafyblob1"; "bafyblob2"] ∅) = None) as Hpage1
    by (vm_compute; reflexivity).
  destruct (Hstep 1 EmptyString ∅
              {| Cids := ["bafyblob1"; "bafyblob2"]; Cursor := Some "page2" |}
              eq_refl Hpage1) as [_ Hnext].
  destruct (Hnext "page2" eq_refl) as [Hrun Hhead]; [discriminate|].
  assert (result (blobPage pathJoin syncGetBlob accept "https://pds.example"
                    "did:plc:alice" "records/did:plc:alice/_blob"
                    ["bafyblob3"; "bafyblob1"]
                    (final (blobPage pathJoin syncGetBlob accept "https://pds.example"
                              "did:plc:alice" "records/did:plc:alice/_blob"
                              ["bafyblob1"; "bafyblob2"] ∅))) = None) as Hpage2
    by (vm_compute; reflexivity).
  destruct (Hstep 1 "page2"
              (final (blobPage pathJoin syncGetBlob accept "https://pds.example"
                        "did:plc:alice" "records/did:plc:alice/_blob"
                        ["bafyblob1"; "bafyblob2"] ∅))
              {| Cids := ["bafyblob3"; "bafyblob1"]; Cursor := None |}
              eq_refl Hpage2) as [Hstop _].
  destruct (Hstop (or_introl eq_refl)) as [Hlast Hlistings].
  split_and!.
  - exact Hhead.
  - exact Hlistings.
  - by rewrite Hlast.
  - reflexivity.
Defined.

(** C7 as stated fails when a page is not processed to its end: the first
    listing call returns the non-empty cursor [page2], the first blob of the
    page cannot be fetched, and the loop ends with the error after this
    single listing call. *)
Lemma error_exit_with_cursor_counterexample :
  let run := blobLoop pathJoin syncListBlobs syncGetBlob_gone accept 3
               "https://pds.example" "did:plc:alice" "records/did:plc:alice/_blob"
               EmptyString ∅ in
  syncListBlobs "https://pds.example" EmptyString "did:plc:alice" 500 EmptyString
  = Ok {| Cids := ["bafyblob1"; "bafyblob2"]; Cursor := Some "page2" |}
  ∧ result run = Returned (Some "blob not found")
  ∧ listings (events run) = [EmptyString].
Proof. split_and!; reflexivity. Qed.



(** On the fixture the commit is the first unit of the output and the
    record units follow it. *)
Lemma commit_exported_before_records_witness :
  let run := unpackRecordsF accept "cars/did:plc:alice.car" "records/did:plc:alice"
               disk_with_car in
  (exports (events run)).*1
  = ["records/did:plc:alice/_commit.json";
     "records/did:plc:alice/app.bsky.actor.profile/self.json";
     "records/did:plc:alice/app.bsky.graph.follow/3c.json"]
  ∧ ∃ pre walk,
      exports pre = []
      ∧ events run
        = pre ++ CallWriteFile "records/did:plc:alice/_commit.json" (text "signed commit") None
              :: walk.
Proof.
  split; [reflexivity|].
  destruct (commit_exported_before_records string string pathJoin pathDir
              marshalCommit marshalRecord accept accept readRepoFromCar
              "cars/did:plc:alice.car" "records/did:plc:alice" disk_with_car)
    as [Hnone|(r & commitJson & pre & fs1 & Hm & Hpre & Hev & Hexp)].
  - vm_compute in Hnone. discriminate Hnone.
  - exists pre, (events (ForEach string string r
                           (recordCallback string string pathJoin pathDir marshalRecord
                              accept accept r "records/did:plc:alice") fs1)).
    split; [exact Hpre|].
    assert (commitJson = text "signed commit") as ->.
    { assert (head (exports (events (unpackRecordsF accept "cars/did:plc:alice.car"
                                       "records/did:plc:alice" disk_with_car)))
              = Some ("records/did:plc:alice/_commit.json", text "signed commit")) as Hc
        by reflexivity.
      rewrite Hexp in Hc. by injection Hc as ->. }
    exact Hev.
Defined.

(** *** Further runs on the concrete environment *)

Local Abbreviation runF mkerr :=
  (run string string pathJoin pathDir trim_ascii parseAtIdentifier lookup syncGetRepo
     syncListBlobs syncGetBlob marshalCommit marshalRecord accept mkerr readRepoFromCar).

Local Abbreviation mainF :=
  (main string string pathJoin pathDir trim_ascii parseAtIdentifier lookup syncGetRepo
     syncListBlobs syncGetBlob marshalCommit marshalRecord accept accept readRepoFromCar).

(** An operating system that refuses to create [records]: [run] returns
    the wrapped error after the two directory calls, without reading the
    identifier file. *)
Lemma run_needs_directories_witness :
  let r := runF (refuse "records") 3 (config true) disk in
  result (ensureDirectories (refuse "records") (config true) disk)
  = Some "failed to create directory records: permission denied"
  ∧ result r = Returned (Some "failed to create directory records: permission denied")
  ∧ events r `prefix_of` [CallMkdirAll "cars"; CallMkdirAll "records"]
  ∧ disk ⊆ final r.
Proof.
  assert (result (ensureDirectories (refuse "records") (config true) disk)
          = Some "failed to create directory records: permission denied") as Hdir
    by reflexivity.
  destruct (run_needs_directories string string pathJoin pathDir trim_ascii
              parseAtIdentifier lookup syncGetRepo syncListBlobs syncGetBlob
              marshalCommit marshalRecord accept (refuse "records") readRepoFromCar
              3 (config true) disk _ Hdir) as (Hres & _ & Hpre & Hsub).
  split_and!; [exact Hdir|exact Hres|exact Hpre|exact Hsub].
Defined.

(** An empty disk: the two directories are created, the identifier file is
    not there, and [run] returns the wrapped error of the read. *)
Lemma run_needs_identifier_file_witness :
  result (ensureDirectories accept (config true) ∅) = None
  ∧ read_node "dids.txt" (final (ensureDirectories accept (config true) ∅))
    = Err "open dids.txt: no such file or directory"
  ∧ runF accept 3 (config true) ∅
    = (Returned (Some ("failed to get DIDs from file: failed to read file: "
                       +:+ "open dids.txt: no such file or directory")),
       final (ensureDirectories accept (config true) ∅),
       [CallMkdirAll "cars"; CallMkdirAll "records"; CallReadFile "dids.txt"]).
Proof.
  assert (result (ensureDirectories accept (config true) ∅) = None) as Hdir
    by reflexivity.
  assert (read_node (DIDsFile (config true))
            (final (ensureDirectories accept (config true) ∅))
          = Err "open dids.txt: no such file or directory") as Hread
    by reflexivity.
  split_and!; [exact Hdir|exact Hread|].
  exact (run_needs_identifier_file string string pathJoin pathDir trim_ascii
           parseAtIdentifier lookup syncGetRepo syncListBlobs syncGetBlob
           marshalCommit marshalRecord accept accept readRepoFromCar
           3 (config true) ∅ _ Hdir Hread).
Defined.

(** Two invocations with the same argument and the same [DOWNLOAD_BLOBS],
    one of them with another [DIDS_FILE] and a further argument: the runs are
    equal, and the identifier file is the argument. *)
Lemma main_argument_overrides_environment_witness :
  environment "other.txt" "DOWNLOAD_BLOBS" = environment "" "DOWNLOAD_BLOBS"
  ∧ mainF ["extract"; "dids.txt"] (environment "other.txt") 3 disk
    = mainF ["extract"; "dids.txt"; "more.txt"] (environment "") 3 disk
  ∧ DIDsFile (mainConfig ["extract"; "dids.txt"] (environment "other.txt")) = "dids.txt".
Proof.
  assert (environment "other.txt" "DOWNLOAD_BLOBS" = environment "" "DOWNLOAD_BLOBS")
    as Henv by reflexivity.
  split; [exact Henv|].
  exact (main_argument_overrides_environment string string pathJoin pathDir trim_ascii
           parseAtIdentifier lookup syncGetRepo syncListBlobs syncGetBlob
           marshalCommit marshalRecord accept accept readRepoFromCar
           "extract" "dids.txt" [] ["more.txt"] (environment "other.txt")
           (environment "") 3 disk Henv).
Defined.

(** The identifier file of the fixture holds an identifier that does not
    resolve: the batch starts, and the exit status is 0; without argument
    and without [DIDS_FILE] the exit status is 1 and nothing is done. *)
Lemma main_exit_status_witness :
  (DownloadBlobs (mainConfig ["extract"; "dids.txt"] (environment "")) = true →
   ∀ host did, pages_end syncListBlobs 3 host did EmptyString = true)
  ∧ result (mainF ["extract"; "dids.txt"] (environment "") 3 disk) = Exit 0
  ∧ mainF ["extract"] (environment "") 3 disk
    = (Exit 1, disk,
       [Stderr ("error: Please provide DIDs file path as argument or set "
                +:+ "DIDS_FILE environment variable" +:+ nl);
        Stderr ("usage: extract <dids-file>" +:+ nl)]).
Proof.
  assert (∀ args, DownloadBlobs (mainConfig args (environment "")) = true →
          ∀ host did, pages_end syncListBlobs 3 host did EmptyString = true) as Hend.
  { intros args _ host did. reflexivity. }
  split_and!.
  - exact (Hend _).
  - destruct (main_exit_status string string pathJoin pathDir trim_ascii
                parseAtIdentifier lookup syncGetRepo syncListBlobs syncGetBlob
                marshalCommit marshalRecord accept accept readRepoFromCar
                "extract" ["dids.txt"] (environment "") 3 disk (Hend _))
      as [_ Hstart].
    destruct Hstart as (Hok & _ & _); [discriminate|].
    exact (Hok (text didsText) eq_refl eq_refl).
  - destruct (main_exit_status string string pathJoin pathDir trim_ascii
                parseAtIdentifier lookup syncGetRepo syncListBlobs syncGetBlob
                marshalCommit marshalRecord accept accept readRepoFromCar
                "extract" [] (environment "") 3 disk (Hend _))
      as [Husage _].
    exact (Husage eq_refl).
Defined.

(** A batch of an identifier that does not resolve and a line that is not
    an identifier: two reports, and the disk is as before. *)
Lemma unresolved_batch_only_reports_witness :
  let r := runLoopF syncGetBlob accept 3 ["did:plc:bob"; "not a did"] (config true) disk in
  Forall (unresolved parseAtIdentifier lookup) ["did:plc:bob"; "not a did"]
  ∧ result r = Returned None
  ∧ final r = disk
  ∧ exports (events r) = []
  ∧ omap stderr_line (events r)
    = ["error processing did:plc:bob: identity not found" +:+ nl;
       "error processing not a did: not a DID" +:+ nl].
Proof.
  assert (Forall (unresolved parseAtIdentifier lookup) ["did:plc:bob"; "not a did"])
    as Hun.
  { repeat constructor. }
  split; [exact Hun|].
  exact (unresolved_batch_only_reports string string pathJoin pathDir
           parseAtIdentifier lookup syncGetRepo syncListBlobs syncGetBlob
           marshalCommit marshalRecord accept accept readRepoFromCar
           3 ["did:plc:bob"; "not a did"] (config true) disk Hun).
Defined.

(** With a decoder that rejects the archive, [processRepo] stores the
    fetched bytes, opens them again and returns the decoder's error: no
    record is written. *)
Lemma processRepo_undecodable_archive_witness :
  readRepoFromCar_corrupt (text "car of did:plc:alice") = Err "invalid car header"
  ∧ processRepo string string pathJoin pathDir parseAtIdentifier lookup syncGetRepo
      syncListBlobs syncGetBlob marshalCommit marshalRecord accept accept
      readRepoFromCar_corrupt 3 "did:plc:alice" (config true) disk
    = (Returned (Some "invalid car header"),
       <["cars/did:plc:alice.car" := File (text "car of did:plc:alice")]> disk,
       [Stdout ("Processing: did:plc:alice" +:+ nl);
        CallLookup "did:plc:alice";
        Stdout ("Downloading from https://pds.example to: cars/did:plc:alice.car" +:+ nl);
        CallSyncGetRepo "https://pds.example" "did:plc:alice";
        CallWriteFile "cars/did:plc:alice.car" (text "car of did:plc:alice") None;
        CallOpen "cars/did:plc:alice.car"]).
Proof.
  assert (PDSEndpoint alice ≠ EmptyString) as Hhost by discriminate.
  split; [reflexivity|].
  exact (processRepo_undecodable_archive string string pathJoin pathDir
           parseAtIdentifier lookup syncGetRepo syncListBlobs syncGetBlob
           marshalCommit marshalRecord accept accept readRepoFromCar_corrupt
           3 "did:plc:alice" "did:plc:alice" alice (config true) disk
           (text "car of did:plc:alice") "invalid car header"
           eq_refl eq_refl Hhost eq_refl eq_refl eq_refl).
Defined.

(** With [DownloadBlobs] off the run of [processRepo] on the fixture makes
    no blob call and is the same with no fuel as with three units. *)
Lemma processRepo_without_blobs_witness :
  DownloadBlobs (config false) = false
  ∧ Forall (λ e, blob_call e = false)
      (events (processRepoF syncGetBlob accept 0 "did:plc:alice" (config false) disk))
  ∧ processRepoF syncGetBlob accept 0 "did:plc:alice" (config false) disk
    = processRepoF syncGetBlob accept 3 "did:plc:alice" (config false) disk.
Proof.
  assert (DownloadBlobs (config false) = false) as Hoff by reflexivity.
  destruct (processRepo_without_blobs string string pathJoin pathDir
              parseAtIdentifier lookup syncGetRepo syncListBlobs syncGetBlob
              marshalCommit marshalRecord accept accept readRepoFromCar
              0 3 "did:plc:alice" (config false) disk Hoff) as (Hcalls & _ & Hfuel).
  split_and!; [exact Hoff|exact Hcalls|exact Hfuel].
Defined.

(** The blob of the second page of the fixture: it was not on the disk, it
    is there afterwards, under its content hash. *)
Lemma downloaded_blobs_are_stored_witness :
  let r := downloadBlobsF syncGetBlob accept 3 alice "records/did:plc:alice" disk in
  ("records/did:plc:alice/_blob/bafyblob3", text "blob bafyblob3") ∈ exports (events r)
  ∧ disk !! "records/did:plc:alice/_blob/bafyblob3" = None
  ∧ final r !! "records/did:plc:alice/_blob/bafyblob3"
    = Some (File (text "blob bafyblob3")).
Proof.
  assert (("records/did:plc:alice/_blob/bafyblob3", text "blob bafyblob3")
          ∈ exports (events (downloadBlobsF syncGetBlob accept 3 alice
                               "records/did:plc:alice" disk))) as Hin.
  { assert (exports (events (downloadBlobsF syncGetBlob accept 3 alice
                               "records/did:plc:alice" disk))
            = [("records/did:plc:alice/_blob/bafyblob1", text "blob bafyblob1");
               ("records/did:plc:alice/_blob/bafyblob2", text "blob bafyblob2");
               ("records/did:plc:alice/_blob/bafyblob3", text "blob bafyblob3")]) as ->
      by reflexivity.
    do 2 apply list_elem_of_further. apply list_elem_of_here. }
  destruct (downloaded_blobs_are_stored pathJoin syncListBlobs syncGetBlob accept accept
              3 alice "records/did:plc:alice" disk _ _ Hin) as (Hnew & Hthere & _).
  split_and!; [exact Hin|exact Hnew|exact Hthere].
Defined.

